(** * Localdemy: subtitle engine and library tree builder

    A shallow embedding of the parts of [src/localdemy/video_player.py] and
    [src/localdemy/window.py] that discover, validate, parse and look up
    subtitles, and that scan a folder and derive the library rows.

    Conventions of the embedding.
    - A Python [str] is a Rocq [string], read as the UTF-8 bytes of the text.
      [strip] and the white space that [int()] and [float()] skip know the
      white-space characters of Unicode, and [len] counts characters.
      [lower] lowers the ASCII letters only and leaves the bytes above 127
      alone; the digits that are read are the ASCII ones.
    - A Python [int] is a [Z].  A [float] is a [PyNum]: an exact rational
      for a finite value (the rounding to 53 bits is not followed), or one
      of [inf], [-inf] and [nan].  A result of size [2^1024 - 2^970] or more
      is an infinity, and an [int] of that size does not convert to [float]
      ([OverflowError]).  [None] stands for an exception.
    - The file system, the persisted progress map and the media backend are
      explicit arguments. *)

From Stdlib Require Import String Ascii List Bool Arith ZArith NArith QArith Lia.
From Stdlib Require Import Permutation Sorted DecimalString.
Import ListNotations.

Set Warnings "-register-all".

Local Close Scope Q_scope.
Local Open Scope string_scope.
Local Open Scope list_scope.
Local Open Scope nat_scope.

(* ================================================================= *)
(** ** Python numbers *)

(** A [float], or an [int] where the code mixes the two. *)
Inductive PyNum : Type :=
| Finite (q : Q)
| PosInf
| NegInf
| NaN.

(** The least size that no longer rounds to a finite [float]. *)
Definition float_limit : Z := 2 ^ 1024 - 2 ^ 970.

(** The [float] an exact result becomes. *)
Definition round_float (q : Q) : PyNum :=
  if Qle_bool (inject_Z float_limit) q then PosInf
  else if Qle_bool q (inject_Z (- float_limit)) then NegInf
  else Finite q.

(** The [float] of an [int], as [n + x] takes it for a [float] [x];
    [None] is the [OverflowError]. *)
Definition float_of_int (n : Z) : option PyNum :=
  if (float_limit <=? Z.abs n)%Z then None else Some (Finite (inject_Z n)).

(** [a + b] on [float]s. *)
Definition num_add (a b : PyNum) : PyNum :=
  match a, b with
  | NaN, _ | _, NaN => NaN
  | PosInf, NegInf | NegInf, PosInf => NaN
  | PosInf, _ | _, PosInf => PosInf
  | NegInf, _ | _, NegInf => NegInf
  | Finite x, Finite y => round_float (x + y)
  end.

(** An infinity ([positive] or not) times a finite [x]. *)
Definition inf_times (positive : bool) (x : Q) : PyNum :=
  match (Qnum x ?= 0)%Z with
  | Eq => NaN
  | Gt => if positive then PosInf else NegInf
  | Lt => if positive then NegInf else PosInf
  end.

(** [a * b] on [float]s. *)
Definition num_mul (a b : PyNum) : PyNum :=
  match a, b with
  | NaN, _ | _, NaN => NaN
  | Finite x, Finite y => round_float (x * y)
  | PosInf, Finite x | Finite x, PosInf => inf_times true x
  | NegInf, Finite x | Finite x, NegInf => inf_times false x
  | PosInf, PosInf | NegInf, NegInf => PosInf
  | PosInf, NegInf | NegInf, PosInf => NegInf
  end.

(** [a < b]: false as soon as one side is [nan]. *)
Definition num_lt (a b : PyNum) : bool :=
  match a, b with
  | NaN, _ | _, NaN => false
  | Finite x, Finite y => negb (Qle_bool y x)
  | _, NegInf => false
  | NegInf, _ => true
  | PosInf, _ => false
  | Finite _, PosInf => true
  end.

(** [a <= b]: false as soon as one side is [nan]. *)
Definition num_le (a b : PyNum) : bool :=
  match a, b with
  | NaN, _ | _, NaN => false
  | Finite x, Finite y => Qle_bool x y
  | NegInf, _ => true
  | _, PosInf => true
  | _, NegInf => false
  | PosInf, _ => false
  end.

(* ================================================================= *)
(** ** Python string operations *)

Module PyStr.

Definition LF : string := String "010"%char "".
Definition CR : string := String "013"%char "".

(** [str.isspace] on an ASCII character: TAB..CR, FS..US and the space. *)
Definition is_space (c : ascii) : bool :=
  let n := nat_of_ascii c in
  ((9 <=? n) && (n <=? 13)) || ((28 <=? n) && (n <=? 32)).

(** The ASCII characters [int()] and [float()] skip at the ends of their
    argument: TAB..CR and the space, without FS..US. *)
Definition is_number_space (c : ascii) : bool :=
  let n := nat_of_ascii c in
  ((9 <=? n) && (n <=? 13)) || (n =? 32).

(** The number of bytes of the white-space character beyond ASCII that [s]
    starts with, 0 when it starts with none: U+0085, U+00A0, U+1680,
    U+2000..U+200A, U+2028, U+2029, U+202F, U+205F and U+3000 in UTF-8. *)
Definition unicode_space_len (s : string) : nat :=
  match s with
  | String a (String b rest) =>
      let x := nat_of_ascii a in
      let y := nat_of_ascii b in
      if (x =? 194) && ((y =? 133) || (y =? 160)) then 2
      else
        match rest with
        | String c _ =>
            let z := nat_of_ascii c in
            if (x =? 225) && ((y =? 154) && (z =? 128)) then 3
            else if (x =? 226) && ((y =? 128) &&
                      (((128 <=? z) && (z <=? 138)) ||
                       ((z =? 168) || ((z =? 169) || (z =? 175))))) then 3
            else if (x =? 226) && ((y =? 129) && (z =? 159)) then 3
            else if (x =? 227) && ((y =? 128) && (z =? 128)) then 3
            else 0
        | EmptyString => 0
        end
  | _ => 0
  end.

(** Stripping, for a given class of ASCII white space. *)
Section Strip.
Variable ascii_space : ascii -> bool.

(** The number of bytes of the white-space character [s] starts with. *)
Definition space_len (s : string) : nat :=
  match s with
  | String c _ => if ascii_space c then 1 else unicode_space_len s
  | EmptyString => 0
  end.

(** [skip] counts the bytes of a white-space character still to drop. *)
Fixpoint lstrip_go (skip : nat) (s : string) : string :=
  match s with
  | EmptyString => EmptyString
  | String _ s' =>
      match skip with
      | S k => lstrip_go k s'
      | O =>
          match space_len s with
          | O => s
          | S k => lstrip_go k s'
          end
      end
  end.

Definition lstrip_by (s : string) : string := lstrip_go 0 s.

Fixpoint rstrip_by (s : string) : string :=
  match s with
  | EmptyString => EmptyString
  | String c s' =>
      match lstrip_by s with
      | EmptyString => EmptyString
      | _ => String c (rstrip_by s')
      end
  end.
End Strip.

Definition lstrip (s : string) : string := lstrip_by is_space s.
Definition rstrip (s : string) : string := rstrip_by is_space s.

(** [s.strip()] *)
Definition strip (s : string) : string := rstrip (lstrip s).

(** [s] as [int()] and [float()] read it, without the white space at its
    ends. *)
Definition number_strip (s : string) : string :=
  rstrip_by is_number_space (lstrip_by is_number_space s).

(** [len(s)]: the bytes that do not continue a character. *)
Fixpoint len (s : string) : nat :=
  match s with
  | EmptyString => 0
  | String c s' =>
      let n := nat_of_ascii c in
      if (128 <=? n) && (n <=? 191) then len s' else S (len s')
  end.

Definition lower_char (c : ascii) : ascii :=
  let n := nat_of_ascii c in
  if (65 <=? n) && (n <=? 90) then ascii_of_nat (n + 32) else c.

(** [s.lower()] *)
Fixpoint lower (s : string) : string :=
  match s with
  | EmptyString => EmptyString
  | String c s' => String (lower_char c) (lower s')
  end.

(** [s.startswith(p)] *)
Fixpoint startswith (s p : string) : bool :=
  match p, s with
  | EmptyString, _ => true
  | String _ _, EmptyString => false
  | String a p', String b s' => Ascii.eqb a b && startswith s' p'
  end.

(** [s.endswith(p)] for a one-character [p]. *)
Fixpoint endswith_char (s : string) (c : ascii) : bool :=
  match s with
  | EmptyString => false
  | String a EmptyString => Ascii.eqb a c
  | String _ s' => endswith_char s' c
  end.

(** [sub in s] *)
Fixpoint contains (sub s : string) : bool :=
  startswith s sub ||
  match s with
  | EmptyString => false
  | String _ s' => contains sub s'
  end.

(** [s.split(sep)] for a non-empty [sep]: left to right, occurrences do not
    overlap.  [skip] counts the characters of a separator still to drop and
    [cur] is the piece being read. *)
Fixpoint split_go (sep s : string) (skip : nat) (cur : string) : list string :=
  match s with
  | EmptyString => [cur]
  | String c s' =>
      match skip with
      | S k => split_go sep s' k cur
      | O =>
          if startswith s sep
          then cur :: split_go sep s' (String.length sep - 1) EmptyString
          else split_go sep s' 0 (cur ++ String c EmptyString)%string
      end
  end.

Definition split (sep s : string) : list string := split_go sep s 0 EmptyString.

(** [s[k:]] *)
Fixpoint drop (k : nat) (s : string) : string :=
  match k, s with
  | O, _ => s
  | S _, EmptyString => EmptyString
  | S k', String _ s' => drop k' s'
  end.

(** [s.replace(old, new)] for a non-empty [old]. *)
Fixpoint replace_go (old new s : string) (skip : nat) : string :=
  match s with
  | EmptyString => EmptyString
  | String c s' =>
      match skip with
      | S k => replace_go old new s' k
      | O =>
          if startswith s old
          then (new ++ replace_go old new s' (String.length old - 1))%string
          else String c (replace_go old new s' 0)
      end
  end.

Definition replace (old new s : string) : string := replace_go old new s 0.

(** [sep.join(l)] *)
Definition join (sep : string) (l : list string) : string := String.concat sep l.

(** [x in l] for a list of strings. *)
Definition mem (x : string) (l : list string) : bool :=
  existsb (String.eqb x) l.

(** [sorted(l, key=key)] and [l.sort(key=key)]: a stable sort, written as
    insertion from the right; an entry goes in front of the first one whose
    key is not smaller.  [le] is the order of the keys. *)
Section Sorting.
Context {A K : Type} (le : K -> K -> bool) (key : A -> K).

Fixpoint insert_by (x : A) (l : list A) : list A :=
  match l with
  | [] => [x]
  | y :: l' =>
      if le (key x) (key y) then x :: l
      else y :: insert_by x l'
  end.

Definition sorted_by (l : list A) : list A := fold_right insert_by [] l.
End Sorting.

(** [l.sort(key=key)] for keys that [<] need not order ([nan] among them).
    The sort compares with [<] alone.  A list in which no entry is smaller
    than the one in front of it is one run for it and stays as it is;
    otherwise the entries are sorted as above, an entry going in front of
    the first one that is not smaller than it.  For keys that [<] orders
    this is the stable sort whatever the list; for keys it does not order,
    the place CPython's merges give the entries of a list with a descent is
    not followed. *)
Section ListSort.
Context {A K : Type} (lt : K -> K -> bool) (key : A -> K).

Fixpoint no_descent (l : list A) : bool :=
  match l with
  | x :: l' =>
      match l' with
      | y :: _ => negb (lt (key y) (key x)) && no_descent l'
      | [] => true
      end
  | [] => true
  end.

Definition list_sort (l : list A) : list A :=
  if no_descent l then l
  else sorted_by (fun a b => negb (lt b a)) key l.
End ListSort.

(** [sorted(l)] for a list of strings: code-point order, which on UTF-8 text
    is the order of the bytes. *)
Definition sorted (l : list string) : list string :=
  sorted_by String.leb (fun s => s) l.

(** [str(n)] for a non-negative integer. *)
Definition str_of_nat (n : nat) : string :=
  DecimalString.NilZero.string_of_uint (Nat.to_uint n).

Definition digit_val (c : ascii) : option Z :=
  let n := nat_of_ascii c in
  if (48 <=? n) && (n <=? 57) then Some (Z.of_nat (n - 48)) else None.

(** A run of decimal digits in which single underscores may separate digits:
    the value and the number of digits read. *)
Fixpoint digits_go (acc : Z) (cnt : nat) (prev_digit : bool) (s : string)
  : option (Z * nat) :=
  match s with
  | EmptyString => if prev_digit then Some (acc, cnt) else None
  | String c s' =>
      match digit_val c with
      | Some d => digits_go (10 * acc + d) (S cnt) true s'
      | None =>
          if Ascii.eqb c "_"%char && prev_digit
          then digits_go acc cnt false s'
          else None
      end
  end.

Definition digits (s : string) : option (Z * nat) := digits_go 0 0 false s.

(** An optional sign in front of the rest. *)
Definition signed (s : string) : Z * string :=
  match s with
  | String "-"%char s' => ((-1)%Z, s')
  | String "+"%char s' => (1%Z, s')
  | _ => (1%Z, s)
  end.

(** [int(s)]; [None] is the [ValueError].  The limit later versions of
    Python put on the number of digits (4300) is not modelled. *)
Definition py_int (s : string) : option Z :=
  let (sg, body) := signed (number_strip s) in
  match digits body with
  | Some (v, _) => Some (sg * v)%Z
  | None => None
  end.

(** The text before the first [.] and, when there is one, the text after it. *)
Fixpoint cut_dot (s : string) : string * option string :=
  match s with
  | EmptyString => (EmptyString, None)
  | String c s' =>
      if Ascii.eqb c "."%char then (EmptyString, Some s')
      else let (a, b) := cut_dot s' in (String c a, b)
  end.

(** The text before the first [e] or [E] and, when there is one, the text
    after it. *)
Fixpoint cut_exp (s : string) : string * option string :=
  match s with
  | EmptyString => (EmptyString, None)
  | String c s' =>
      if Ascii.eqb c "e"%char || Ascii.eqb c "E"%char then (EmptyString, Some s')
      else let (a, b) := cut_exp s' in (String c a, b)
  end.

(** The value of [12], [12.], [.5] or [12.5]. *)
Definition mantissa (body : string) : option Q :=
  match cut_dot body with
  | (ip, None) =>
      match digits ip with
      | Some (v, _) => Some (inject_Z v)
      | None => None
      end
  | (ip, Some fp) =>
      match ip, fp with
      | EmptyString, EmptyString => None
      | EmptyString, _ =>
          match digits fp with
          | Some (f, n) => Some (Qmake f (Pos.pow 10 (Pos.of_nat n)))
          | None => None
          end
      | _, EmptyString =>
          match digits ip with
          | Some (v, _) => Some (inject_Z v)
          | None => None
          end
      | _, _ =>
          match digits ip, digits fp with
          | Some (v, _), Some (f, n) =>
              Some (Qmake (v * Z.pow 10 (Z.of_nat n) + f)
                          (Pos.pow 10 (Pos.of_nat n)))
          | _, _ => None
          end
      end
  end.

(** [10 ** e] *)
Definition pow10 (e : Z) : Q :=
  if (0 <=? e)%Z then inject_Z (10 ^ e)
  else Qmake 1 (Z.to_pos (10 ^ (- e))).

(** [float(s)]; [None] is the [ValueError].  Read are [inf], [infinity] and
    [nan] in any case of the letters, and decimal literals with an optional
    fraction and exponent ([12], [12.], [.5], [12.5e-3]), all with an
    optional sign. *)
Definition py_float (s : string) : option PyNum :=
  let (sg, body) := signed (number_strip s) in
  let word := lower body in
  if String.eqb word "inf" || String.eqb word "infinity"
  then Some (if (0 <? sg)%Z then PosInf else NegInf)
  else if String.eqb word "nan" then Some NaN
  else
    let (m, e) := cut_exp body in
    match mantissa m with
    | None => None
    | Some q =>
        match e with
        | None => Some (round_float (inject_Z sg * q))
        | Some etext =>
            let (esg, ebody) := signed etext in
            match digits ebody with
            | Some (ev, _) =>
                Some (round_float (inject_Z sg * q * pow10 (esg * ev)))
            | None => None
            end
        end
    end.

End PyStr.

(* ================================================================= *)
(** ** Cues and the two subtitle parsers *)

(** One entry of [self.subtitles]: the dict with keys ['start'], ['end'] and
    ['text'].  Times are milliseconds. *)
Record Cue : Type := mkCue { start : PyNum; end_ : PyNum; text : string }.

(** [subtitle['start'] <= timestamp_ms <= subtitle['end']], for a finite
    time stamp. *)
Definition covers (t : Q) (c : Cue) : bool :=
  num_le (start c) (Finite t) && num_le (Finite t) (end_ c).

(** [self.subtitles.sort(key=lambda x: x['start'])] *)
Definition sort_by_start (l : list Cue) : list Cue :=
  PyStr.list_sort num_lt start l.

(** [(hours * 3600 + minutes * 60 + seconds) * 1000] for [int]s [hours] and
    [minutes] and a [float] [seconds]: the sum of the first two is an [int]
    that the addition of [seconds] turns into a [float]. *)
Definition to_ms (hours minutes : Z) (seconds : PyNum) : option PyNum :=
  match float_of_int (hours * 3600 + minutes * 60) with
  | None => None
  | Some whole => Some (num_mul (num_add whole seconds) (Finite (inject_Z 1000)))
  end.

Module SRT.
Import PyStr.

(** [SRTParser.time_to_ms]; [None] is an exception: the [ValueError] of
    [int] or [float], or the [OverflowError] of the sum. *)
Definition time_to_ms (time_str : string) : option PyNum :=
  let parts := split ":" (replace "," "." time_str) in
  if negb (length parts =? 3) then Some (Finite (inject_Z 0))
  else
    match py_int (nth 0 parts "") with
    | None => None
    | Some hours =>
        match py_int (nth 1 parts "") with
        | None => None
        | Some minutes =>
            match py_float (nth 2 parts "") with
            | None => None
            | Some seconds => to_ms hours minutes seconds
            end
        end
    end.

(** The body of the loop over blocks in [SRTParser.parse]: the cue a block
    appends, or [None] when the block is passed over ([continue], or the
    exception caught around the two conversions). *)
Definition parse_block (block : string) : option Cue :=
  let lines := split LF block in
  if length lines <? 3 then None
  else
    let timing := nth 1 lines "" in
    let times := split " --> " timing in
    if negb (length times =? 2) then None
    else
      match time_to_ms (strip (nth 0 times "")) with
      | None => None
      | Some start_time =>
          match time_to_ms (strip (nth 1 times "")) with
          | None => None
          | Some end_time =>
              Some (mkCue start_time end_time (join LF (skipn 2 lines)))
          end
      end.

Definition blocks_of (content : string) : list string :=
  split (LF ++ LF)%string (replace (CR ++ LF)%string LF (strip content)).

(** The cues in the order the loop appends them. *)
Fixpoint collect (blocks : list string) : list Cue :=
  match blocks with
  | [] => []
  | b :: bs =>
      match parse_block b with
      | Some c => c :: collect bs
      | None => collect bs
      end
  end.

(** [SRTParser.parse]: the value of [self.subtitles] afterwards. *)
Definition parse (content : string) : list Cue :=
  match content with
  | EmptyString => []
  | _ => sort_by_start (collect (blocks_of content))
  end.

(** [SRTParser.format_subtitle_text] *)
Definition format_subtitle_text (t : string) : string :=
  let t := replace "&" "&amp;" t in
  let t := replace "<" "&lt;" t in
  let t := replace ">" "&gt;" t in
  let t := replace "{b}" "<b>" t in
  let t := replace "{/b}" "</b>" t in
  let t := replace "{i}" "<i>" t in
  let t := replace "{/i}" "</i>" t in
  t.

(** [SRTParser.get_subtitle_at_time] *)
Fixpoint get_subtitle_at_time (subtitles : list Cue) (timestamp_ms : Q) : string :=
  match subtitles with
  | [] => ""
  | subtitle :: rest =>
      if covers timestamp_ms subtitle
      then format_subtitle_text (text subtitle)
      else get_subtitle_at_time rest timestamp_ms
  end.

End SRT.

Module VTT.
Import PyStr.

Definition allowed_tags : list string := ["b"; "i"; "u"; "c"].

(** One turn of the loop over [allowed_tags]: both replacements put back the
    very text they look for. *)
Definition restore_tag (t tag : string) : string :=
  let t := replace ("<" ++ tag ++ ">")%string ("<" ++ tag ++ ">")%string t in
  let t := replace ("</" ++ tag ++ ">")%string ("</" ++ tag ++ ">")%string t in
  t.

(** [VTTParser.format_subtitle_text] *)
Definition format_subtitle_text (t : string) : string :=
  let t := replace "&" "&amp;" t in
  let t := replace "<" "&lt;" t in
  let t := replace ">" "&gt;" t in
  fold_left restore_tag allowed_tags t.

(** [VTTParser.get_subtitle_at_time] *)
Fixpoint get_subtitle_at_time (subtitles : list Cue) (timestamp_ms : Q) : string :=
  match subtitles with
  | [] => ""
  | subtitle :: rest =>
      if covers timestamp_ms subtitle
      then format_subtitle_text (text subtitle)
      else get_subtitle_at_time rest timestamp_ms
  end.

(** [VTTParser.time_to_ms]; [None] is an exception: the [ValueError] of
    [int] or [float], or the [OverflowError] of the sum. *)
Definition time_to_ms (time_str : string) : option PyNum :=
  let parts := split ":" time_str in
  if length parts =? 3 then
    match py_int (nth 0 parts "") with
    | None => None
    | Some hours =>
        match py_int (nth 1 parts "") with
        | None => None
        | Some minutes =>
            match py_float (nth 2 parts "") with
            | None => None
            | Some seconds => to_ms hours minutes seconds
            end
        end
    end
  else if length parts =? 2 then
    match py_int (nth 0 parts "") with
    | None => None
    | Some minutes =>
        match py_float (nth 1 parts "") with
        | None => None
        | Some seconds => to_ms 0 minutes seconds
        end
    end
  else Some (Finite (inject_Z 0)).

(** The variables of the loop in [VTTParser.parse].  The dict [subtitle] is
    one object that the loop may append to [self.subtitles] more than once
    (a line with two arrows leaves it in place after it was appended) and
    whose ['text'] it overwrites each time: [appended] counts the entries of
    the list that are this object, they are its last ones, and [done] holds
    the entries before them.  [bounds] is [None] when [subtitle] is. *)
Record State : Type := mkState {
  done : list Cue;
  bounds : option (PyNum * PyNum);
  cur_text : string;
  appended : nat;
  text_lines : list string
}.

(** [self.subtitles] as the state stands for it. *)
Definition subtitles_of (st : State) : list Cue :=
  match bounds st with
  | Some (s, e) => done st ++ repeat (mkCue s e (cur_text st)) (appended st)
  | None => done st
  end.

(** [if subtitle and text_lines: subtitle['text'] = ...; append] *)
Definition flush (st : State) : State :=
  match bounds st, text_lines st with
  | Some _, _ :: _ =>
      mkState (done st) (bounds st) (join LF (text_lines st))
        (S (appended st)) (text_lines st)
  | _, _ => st
  end.

(** The body of the loop for one line. *)
Definition step (st : State) (raw_line : string) : State :=
  let line := strip raw_line in
  if String.eqb line "" || startswith line "NOTE " then st
  else if contains " --> " line then
    let st1 := flush st in
    let times := split " --> " line in
    if negb (length times =? 2) then st1
    else
      match time_to_ms (strip (nth 0 times "")),
            time_to_ms (nth 0 (split " " (strip (nth 1 times ""))) "") with
      | Some start_time, Some end_time =>
          mkState (subtitles_of st1) (Some (start_time, end_time)) "" 0 []
      | _, _ =>
          mkState (subtitles_of st1) None "" 0 (text_lines st1)
      end
  else
    match bounds st with
    | Some _ =>
        mkState (done st) (bounds st) (cur_text st) (appended st)
          (text_lines st ++ [line])
    | None => st
    end.

(** [VTTParser.parse]: the value of [self.subtitles] afterwards. *)
Definition parse (content : string) : list Cue :=
  match content with
  | EmptyString => []
  | _ =>
      let lines := split LF (replace (CR ++ LF)%string LF (strip content)) in
      if negb (startswith (hd "" lines) "WEBVTT") then []
      else
        sort_by_start
          (subtitles_of
             (flush (fold_left step (tl lines) (mkState [] None "" 0 []))))
  end.

End VTT.

(* ================================================================= *)
(** ** [os.path] on POSIX paths *)

Module OsPath.
Import PyStr.

(** [(p[:i], p[i:])] for [i = p.rfind('/') + 1]. *)
Fixpoint split_last_slash (p : string) : string * string :=
  match p with
  | EmptyString => (EmptyString, EmptyString)
  | String c p' =>
      let (h, t) := split_last_slash p' in
      match h with
      | EmptyString =>
          if Ascii.eqb c "/"%char then (String c EmptyString, t)
          else (EmptyString, String c t)
      | _ => (String c h, t)
      end
  end.

(** [(t[:d], t[d:])] for [d = t.rfind('.')], when [t] has a dot. *)
Fixpoint split_last_dot (t : string) : option (string * string) :=
  match t with
  | EmptyString => None
  | String c t' =>
      match split_last_dot t' with
      | Some (a, b) => Some (String c a, b)
      | None => if Ascii.eqb c "."%char then Some (EmptyString, t) else None
      end
  end.

Fixpoint all_char (c : ascii) (s : string) : bool :=
  match s with
  | EmptyString => true
  | String a s' => Ascii.eqb a c && all_char c s'
  end.

(** [os.path.splitext]: the extension starts at the last dot of the last
    component, unless only dots come before it there. *)
Definition splitext (p : string) : string * string :=
  let (h, t) := split_last_slash p in
  match split_last_dot t with
  | Some (stem, ext) =>
      if all_char "."%char stem then (p, EmptyString)
      else ((h ++ stem)%string, ext)
  | None => (p, EmptyString)
  end.

(** [os.path.basename] *)
Definition basename (p : string) : string := snd (split_last_slash p).

Fixpoint rstrip_slash (s : string) : string :=
  match s with
  | EmptyString => EmptyString
  | String c s' =>
      match rstrip_slash s' with
      | EmptyString =>
          if Ascii.eqb c "/"%char then EmptyString else String c EmptyString
      | r => String c r
      end
  end.

(** [os.path.dirname] *)
Definition dirname (p : string) : string :=
  let head := fst (split_last_slash p) in
  if all_char "/"%char head then head else rstrip_slash head.

(** [os.path.join(a, b)] *)
Definition join (a b : string) : string :=
  if startswith b "/" then b
  else
    match a with
    | EmptyString => b
    | _ => if endswith_char a "/"%char then (a ++ b)%string
           else (a ++ "/" ++ b)%string
    end.

End OsPath.

(* ================================================================= *)
(** ** The file system seen by the player *)

(** What [os.path.exists], [os.path.isdir], [os.listdir], [os.path.getsize]
    and [open(...).read(1000)] answer.  [listdir] is the order the operating
    system lists a directory in. *)
Record FileSystem : Type := mkFS {
  exists_ : string -> bool;
  isdir : string -> bool;
  listdir : string -> list string;
  getsize : string -> Z;
  read_head : string -> string
}.

(** The first [Some] a loop with [break] stops at. *)
Fixpoint first_some {A B : Type} (f : A -> option B) (l : list A) : option B :=
  match l with
  | [] => None
  | x :: l' =>
      match f x with
      | Some y => Some y
      | None => first_some f l'
      end
  end.

Definition or_else {A : Type} (a b : option A) : option A :=
  match a with
  | Some _ => a
  | None => b
  end.

(* ================================================================= *)
(** ** Subtitle discovery, validation and the player's subtitle state *)

Module VideoPlayer.
Import PyStr.

Definition subtitle_extensions : list string :=
  [".srt"; ".vtt"; ".ass"; ".ssa"; ".sub"].

Definition language_codes : list string :=
  ["en"; "eng"; "english"; "es"; "spa"; "spanish"; "fr"; "fre"; "french";
   "de"; "ger"; "german"; "it"; "ita"; "italian"; "ru"; "rus"; "russian"].

Section Search.
Variable fs : FileSystem.
Variable video_path : string.

Definition base_path : string := fst (OsPath.splitext video_path).
Definition base_name : string := OsPath.basename base_path.
Definition directory : string := OsPath.dirname video_path.

(** Patterns 1 to 3: languages outside, extensions inside, both loops left
    at the first file that exists. *)
Definition pattern_lang (sep : string) : option string :=
  first_some
    (fun lang =>
       first_some
         (fun ext =>
            let lang_subtitle := (base_path ++ sep ++ lang ++ ext)%string in
            if exists_ fs lang_subtitle then Some lang_subtitle else None)
         subtitle_extensions)
    language_codes.

Definition pattern1 : option string := pattern_lang ".".
Definition pattern2 : option string := pattern_lang "_".
Definition pattern3 : option string := pattern_lang "-".

(** Pattern 4: the same name with a subtitle extension. *)
Definition pattern4 : option string :=
  first_some
    (fun ext =>
       let generic_subtitle := (base_path ++ ext)%string in
       if exists_ fs generic_subtitle then Some generic_subtitle else None)
    subtitle_extensions.

(** Pattern 5: a subtitle directory beside the video. *)
Definition pattern5 : option string :=
  first_some
    (fun subdir =>
       let subs_dir := OsPath.join directory subdir in
       if exists_ fs subs_dir && isdir fs subs_dir then
         first_some
           (fun filename =>
              let (file_base, file_ext) := OsPath.splitext filename in
              if mem (lower file_ext) subtitle_extensions &&
                 (contains (lower file_base) (lower base_name) ||
                  contains (lower base_name) (lower file_base) ||
                  String.eqb (lower file_base) (lower base_name))
              then Some (OsPath.join subs_dir filename)
              else None)
           (listdir fs subs_dir)
       else None)
    ["subtitles"; "subs"; "srt"; "subtitle"; "sub"].

(** Pattern 6: the parent of the video's directory. *)
Definition pattern6 : option string :=
  let parent_dir := OsPath.dirname directory in
  if exists_ fs parent_dir && isdir fs parent_dir then
    first_some
      (fun filename =>
         let (file_base, file_ext) := OsPath.splitext filename in
         if mem (lower file_ext) subtitle_extensions &&
            contains (lower base_name) (lower file_base)
         then Some (OsPath.join parent_dir filename)
         else None)
      (listdir fs parent_dir)
  else None.

(** The pattern of a rank, 1 to 6. *)
Definition pattern (rank : nat) : option string :=
  match rank with
  | 1 => pattern1
  | 2 => pattern2
  | 3 => pattern3
  | 4 => pattern4
  | 5 => pattern5
  | 6 => pattern6
  | _ => None
  end.

(** The value of [found_subtitle] once the six searches of
    [load_subtitles] are through: each search runs only while nothing has
    been found. *)
Definition found_subtitle : option string :=
  or_else pattern1
    (or_else pattern2
       (or_else pattern3
          (or_else pattern4
             (or_else pattern5 pattern6)))).
End Search.

(** Where [_validate_subtitle_file] returns.  The first four are the returns
    in front of [open]; [Content] is the verdict of the look at the first
    1000 characters. *)
Inductive Validation : Type :=
| DoesNotExist
| UnsupportedExtension
| FileEmpty
| FileTooLarge
| Content (valid : bool).

Definition size_limit : Z := 10 * 1024 * 1024.

(** [any(line.strip().isdigit() for line in content.split('\n') if line.strip())]
    is computed for the log only and decides nothing. *)
Definition check_content (ext content : string) : bool :=
  if String.eqb ext ".srt" then
    contains "-->" content && (10 <? len (strip content))
  else if String.eqb ext ".vtt" then
    if startswith (strip content) "WEBVTT" then true
    else contains "-->" content && (10 <? len (strip content))
  else if mem ext [".ssa"; ".ass"] then
    contains "[Script Info]" content ||
    (contains "[V4+ Styles]" content || contains "[Events]" content)
  else if String.eqb ext ".sub" then
    contains "-->" content || (contains "{" content && contains "}" content)
  else
    contains "-->" content && (10 <? len (strip content)).

Definition validate (fs : FileSystem) (file_path : string) : Validation :=
  if negb (exists_ fs file_path) then DoesNotExist
  else
    let ext := lower (snd (OsPath.splitext file_path)) in
    if negb (mem ext [".srt"; ".vtt"; ".sub"; ".ssa"; ".ass"])
    then UnsupportedExtension
    else if (getsize fs file_path =? 0)%Z then FileEmpty
    else if (size_limit <? getsize fs file_path)%Z then FileTooLarge
    else Content (check_content ext (read_head fs file_path)).

(** [VideoPlayer._validate_subtitle_file] *)
Definition _validate_subtitle_file (fs : FileSystem) (file_path : string) : bool :=
  match validate fs file_path with
  | Content valid => valid
  | _ => false
  end.

(** The media backend's element, as far as subtitles touch it.  [accepts]
    says whether setting the subtitle URI and flags on it goes through
    (the [try] around those calls, taken as a whole); the element is taken
    to have the [subtitle-encoding] property. *)
Record Playbin : Type := mkPlaybin {
  suburi : option string;
  flags : Z;
  subtitle_encoding : option string;
  accepts : string -> bool
}.

(** The attributes of the player the subtitle code reads and writes.
    [None] in [_last_subtitle_check] is the attribute not being set. *)
Record Player : Type := mkPlayer {
  _last_subtitle_check : option string;
  _subtitle_not_found : option string;
  subtitle_file : option string;
  subtitle_file_label : string;
  subtitle_label : string;
  current_subtitle_text : option string;
  subtitle_parser : option (list Cue);
  _subtitle_timer_id : nat;
  subtitle_info_bar_revealed : bool;
  subtitle_button_active : bool;
  subtitles_enabled : bool;
  pending_selection_checks : nat;
  playbin : option Playbin
}.

Definition required_flags : Z :=
  Z.lor (Z.lor (Z.shiftl 1 4) (Z.shiftl 1 5)) (Z.shiftl 1 7).

(** [VideoPlayer.set_subtitle_file] *)
Definition set_subtitle_file (fs : FileSystem) (self : Player)
    (subtitle_path : string) : bool * Player :=
  if String.eqb subtitle_path "" || negb (exists_ fs subtitle_path)
  then (false, self)
  else if (getsize fs subtitle_path =? 0)%Z then (false, self)
  else
    let self1 :=
      mkPlayer (_last_subtitle_check self) (_subtitle_not_found self)
        (Some subtitle_path) (OsPath.basename subtitle_path)
        "" None None 0
        (subtitle_info_bar_revealed self) (subtitle_button_active self)
        (subtitles_enabled self) (pending_selection_checks self)
        (playbin self) in
    match playbin self with
    | None => (false, self1)
    | Some pb =>
        if accepts pb subtitle_path then
          let pb' :=
            mkPlaybin (Some subtitle_path) (Z.lor (flags pb) required_flags)
              (Some "UTF-8") (accepts pb) in
          (true,
           mkPlayer (_last_subtitle_check self1) (_subtitle_not_found self1)
             (subtitle_file self1) (subtitle_file_label self1)
             (subtitle_label self1) (current_subtitle_text self1)
             (subtitle_parser self1) (_subtitle_timer_id self1)
             true true true (S (pending_selection_checks self1))
             (Some pb'))
        else
          (false,
           mkPlayer (_last_subtitle_check self1) (_subtitle_not_found self1)
             None "None"
             (subtitle_label self1) (current_subtitle_text self1)
             (subtitle_parser self1) (_subtitle_timer_id self1)
             false (subtitle_button_active self1)
             (subtitles_enabled self1) (pending_selection_checks self1)
             (playbin self1))
    end.

(** [VideoPlayer.load_subtitles] *)
Definition load_subtitles (fs : FileSystem) (self : Player)
    (video_path : string) : bool * Player :=
  if String.eqb video_path "" then (false, self)
  else if match _last_subtitle_check self with
          | Some p => String.eqb p video_path
          | None => false
          end
  then (false, self)
  else
    let self1 :=
      mkPlayer (Some video_path) (_subtitle_not_found self)
        None (subtitle_file_label self) "" None
        (subtitle_parser self) (_subtitle_timer_id self)
        (subtitle_info_bar_revealed self) (subtitle_button_active self)
        (subtitles_enabled self) (pending_selection_checks self)
        (playbin self) in
    match found_subtitle fs video_path with
    | Some found =>
        let (result, self2) := set_subtitle_file fs self1 found in
        if result then (true, self2)
        else
          (false,
           mkPlayer (_last_subtitle_check self2) (_subtitle_not_found self2)
             (subtitle_file self2) "Error loading"
             (subtitle_label self2) (current_subtitle_text self2)
             (subtitle_parser self2) (_subtitle_timer_id self2)
             true (subtitle_button_active self2)
             (subtitles_enabled self2) (pending_selection_checks self2)
             (playbin self2))
    | None =>
        (false,
         mkPlayer (_last_subtitle_check self1) (Some video_path)
           (subtitle_file self1) "None"
           (subtitle_label self1) (current_subtitle_text self1)
           (subtitle_parser self1) (_subtitle_timer_id self1)
           true (subtitle_button_active self1)
           (subtitles_enabled self1) (pending_selection_checks self1)
           (playbin self1))
    end.

(** The part of [_on_subtitle_file_selected] that follows the dialog: the
    chosen path is validated and only then handed to [set_subtitle_file].
    The first component says whether the file was taken. *)
Definition _on_subtitle_file_selected (fs : FileSystem) (self : Player)
    (path : string) : bool * Player :=
  if _validate_subtitle_file fs path then
    let (success, self1) := set_subtitle_file fs self path in
    if success then
      (true,
       mkPlayer (_last_subtitle_check self1) (_subtitle_not_found self1)
         (subtitle_file self1) (subtitle_file_label self1)
         (subtitle_label self1) (current_subtitle_text self1)
         (subtitle_parser self1) (_subtitle_timer_id self1)
         (subtitle_info_bar_revealed self1) true true
         (pending_selection_checks self1) (playbin self1))
    else (false, self1)
  else (false, self).

(** [f"{n:02d}"]: at least two characters, the sign among them. *)
Definition pad2 (n : Z) : string :=
  if (n <? 0)%Z then "-" ++ str_of_nat (Z.to_nat (- n))
  else if (n <? 10)%Z then "0" ++ str_of_nat (Z.to_nat n)
  else str_of_nat (Z.to_nat n).

(** [int(seconds)] of a float: the fraction is dropped, towards zero. *)
Definition py_trunc (seconds : Q) : Z := Z.quot (Qnum seconds) (Z.pos (Qden seconds)).

(** [VideoPlayer.format_time]; [divmod] rounds down. *)
Definition format_time (seconds : Q) : string :=
  let n := py_trunc seconds in
  let minutes := (n / 60)%Z in
  let seconds := (n mod 60)%Z in
  let hours := (minutes / 60)%Z in
  let minutes := (minutes mod 60)%Z in
  if (0 <? hours)%Z
  then pad2 hours ++ ":" ++ pad2 minutes ++ ":" ++ pad2 seconds
  else pad2 minutes ++ ":" ++ pad2 seconds.

End VideoPlayer.

(* ================================================================= *)
(** ** Folder scan and library rows *)

Module LocaldemyWindow.
Import PyStr.

Definition VIDEO_EXTENSIONS : list string :=
  [".mp4"; ".mkv"; ".avi"; ".mov"; ".wmv"; ".flv"; ".webm"; ".m4v"; ".mpg";
   ".mpeg"; ".3gp"].

(** A directory on disk: the names of its plain files and its
    sub-directories, in the order [os.walk] lists them. *)
Inductive Dir : Type :=
| mkDir (files : list string) (dirs : list (string * Dir)).

(** One step of [os.walk]: the directory's path, the same path as names
    below the top ([os.path.relpath(root, folder_path).split(os.path.sep)],
    empty for the top itself) and its file names. *)
Record Visit : Type := mkVisit {
  root : string;
  path_parts : list string;
  filenames : list string
}.

(** [os.walk(top)] top-down, with the in-place pruning of [dirs] the loop
    body does before the walk goes down: only names [keep] accepts are
    entered. *)
Fixpoint walk (keep : string -> bool) (top : string) (parts : list string)
    (d : Dir) : list Visit :=
  match d with
  | mkDir files dirs =>
      mkVisit top parts files ::
      (fix down (l : list (string * Dir)) : list Visit :=
         match l with
         | [] => []
         | (name, sub) :: l' =>
             if keep name
             then walk keep (OsPath.join top name) (parts ++ [name]) sub ++ down l'
             else down l'
         end) dirs
  end.

(** [not d.startswith('.')] *)
Definition not_hidden (d : string) : bool := negb (startswith d ".").

(** [os.path.splitext(f)[1].lower() in VIDEO_EXTENSIONS] *)
Definition is_video (f : string) : bool :=
  mem (lower (snd (OsPath.splitext f))) VIDEO_EXTENSIONS.

(** The nested dict [folder_structure]: the list under the key ['_files']
    (absent until a video is found there) and the dicts under the other
    keys, in insertion order.  The two are kept apart here: a dict in which
    the name of a directory has met the key ['_files'] is not among these
    structures, and [store] below says where a scan leaves them. *)
Inductive FolderStructure : Type :=
| Folder (_files : option (list (string * string)))
         (subfolders : list (string * FolderStructure)).

Definition empty_folder : FolderStructure := Folder None [].

Definition files_of (s : FolderStructure) : option (list (string * string)) :=
  match s with Folder f _ => f end.

Definition subfolders_of (s : FolderStructure) : list (string * FolderStructure) :=
  match s with Folder _ subs => subs end.

(** [d[k]] for a key that may be missing. *)
Fixpoint lookup {V : Type} (k : string) (l : list (string * V)) : option V :=
  match l with
  | [] => None
  | (k', v) :: l' => if String.eqb k k' then Some v else lookup k l'
  end.

(** [if part not in level: level[part] = {}] followed by the change [f] to
    [level[part]]. *)
Fixpoint update_sub (part : string) (f : FolderStructure -> FolderStructure)
    (subs : list (string * FolderStructure)) : list (string * FolderStructure) :=
  match subs with
  | [] => [(part, f empty_folder)]
  | (k, v) :: subs' =>
      if String.eqb part k then (k, f v) :: subs'
      else (k, v) :: update_sub part f subs'
  end.

(** What one visit does to [folder_structure] when none of [path_parts] is
    ['_files']: go down [path_parts], creating the levels that are missing,
    and append the videos found to the ['_files'] of the level reached. *)
Fixpoint add_files (parts : list string) (videos : list (string * string))
    (s : FolderStructure) : FolderStructure :=
  match parts with
  | [] =>
      match videos with
      | [] => s
      | _ =>
          Folder (Some (match files_of s with
                        | Some l => l ++ videos
                        | None => videos
                        end))
                 (subfolders_of s)
      end
  | part :: parts' =>
      Folder (files_of s) (update_sub part (add_files parts' videos) (subfolders_of s))
  end.

(** The three results the scanning loop builds. *)
Record Scan : Type := mkScan {
  all_files : list (string * string);
  folder_structure : FolderStructure;
  total_files : nat
}.

(** How a step of the scan can end.  [Raised]: an exception reaches the
    [except] of [scan_folder_thread], which shows an error and hands nothing
    on.  [Unfollowed]: the walk has put a dict under ['_files'], where the
    list of videos belongs; [FolderStructure] holds no such level and the
    scan is not followed from there. *)
Inductive Outcome (A : Type) : Type :=
| Done (a : A)
| Cancelled
| Raised
| Unfollowed.

Arguments Done {A} a.
Arguments Cancelled {A}.
Arguments Raised {A}.
Arguments Unfollowed {A}.

(** The names in front of the first ['_files'] among [parts] and those
    after it. *)
Fixpoint before_files (parts : list string) : option (list string * list string) :=
  match parts with
  | [] => None
  | part :: rest =>
      if String.eqb part "_files" then Some ([], rest)
      else
        match before_files rest with
        | Some (pre, post) => Some (part :: pre, post)
        | None => None
        end
  end.

(** The level the walk down [parts] reaches, empty when it is created on the
    way. *)
Fixpoint level_at (s : FolderStructure) (parts : list string) : FolderStructure :=
  match parts with
  | [] => s
  | part :: rest =>
      match lookup part (subfolders_of s) with
      | Some sub => level_at sub rest
      | None => empty_folder
      end
  end.

(** The walk down [path_parts] and the appending of the videos found, for
    any names.  A part named ['_files'] meets the key of the list of videos:
    where the level has that list, the list becomes [current_level], and
    going further down or adding a video indexes it with a string
    ([TypeError]); without the list, [current_level['_files'] = {}] is what
    the walk stores. *)
Definition store (parts : list string) (videos : list (string * string))
    (s : FolderStructure) : Outcome FolderStructure :=
  match before_files parts with
  | None => Done (add_files parts videos s)
  | Some (pre, post) =>
      match files_of (level_at s pre) with
      | None => Unfollowed
      | Some _ =>
          match post, videos with
          | [], [] => Done (add_files pre [] s)
          | _, _ => Raised
          end
      end
  end.

(** The body of the loop over [os.walk] up to the check of the flag. *)
Definition scan_visit (acc : Scan) (v : Visit) : Outcome Scan :=
  let video_files := filter is_video (filenames v) in
  let found := map (fun f => (OsPath.join (root v) f, f)) video_files in
  match store (path_parts v) found (folder_structure acc) with
  | Done s =>
      Done (mkScan (all_files acc ++ found) s (total_files acc + length video_files))
  | Cancelled => Cancelled
  | Raised => Raised
  | Unfollowed => Unfollowed
  end.

(** The loop of [scan_folder_thread] over the visits.  [cancelled n] is
    what the check at the end of the visit numbered [n] reads in
    [self.scan_cancelled]. *)
Fixpoint scan_loop (cancelled : nat -> bool) (n : nat) (acc : Scan)
    (visits : list Visit) : Outcome Scan :=
  match visits with
  | [] => Done acc
  | v :: visits' =>
      match scan_visit acc v with
      | Done acc' =>
          if cancelled n then Cancelled
          else scan_loop cancelled (S n) acc' visits'
      | other => other
      end
  end.

(** [scan_folder_thread] up to the hand-over to [build_folder_model]:
    what is handed over, [None] when nothing is (the scan was cancelled or
    raised) or when the scan is not followed to its end. *)
Definition scan_folder_thread (cancelled : nat -> bool) (folder_path : string)
    (d : Dir) : option Scan :=
  match scan_loop cancelled 0 (mkScan [] empty_folder 0)
          (walk not_hidden folder_path [] d) with
  | Done s =>
      Some (mkScan (sorted_by String.leb (fun x => lower (snd x)) (all_files s))
                   (folder_structure s) (total_files s))
  | _ => None
  end.

(** [VideoItem] of [library.py], with the attributes the window sets on it. *)
Record VideoItem : Type := mkVideoItem {
  video_id : string;
  title : string;
  details : string;
  duration : Z;
  progress : Q;
  file_path : string;
  is_folder : bool;
  folder_name : option string;
  indent_level : nat
}.

(** [self.progress_data]: for a path it knows, the ['percentage'] of the
    record when the record has one. *)
Definition ProgressData : Type := string -> option (option Q).

Definition progress_percentage (progress_data : ProgressData) (path : string) : Q :=
  match progress_data path with
  | Some (Some p) => p
  | _ => inject_Z 0
  end.

Definition folder_marker : string := "📁 ".

(** The keys of a level other than ['_files'], sorted. *)
Definition sorted_folder_names (s : FolderStructure) : list string :=
  sorted (filter (fun k => negb (String.eqb k "_files")) (map fst (subfolders_of s))).

Definition count_files (s : option FolderStructure) : nat :=
  match s with
  | Some (Folder (Some l) _) => length l
  | _ => 0
  end.

(** The folder row [build_folder_model] appends for a top-level folder. *)
Definition folder_item (s : FolderStructure) (name : string) : VideoItem :=
  mkVideoItem ("folder_" ++ name) (folder_marker ++ name)
    (str_of_nat (count_files (lookup name (subfolders_of s))) ++ " videos")
    0 (inject_Z 0) "" true (Some name) 0.

Definition root_header (n : nat) : VideoItem :=
  mkVideoItem "folder_root" (folder_marker ++ "Root Files")
    (str_of_nat n ++ " videos") 0 (inject_Z 0) "" true (Some ".") 0.

(** The loop over [root_files]: each row takes the length of the model so
    far as its number. *)
Fixpoint add_root_files (progress_data : ProgressData)
    (videos_model : list VideoItem) (root_files : list (string * string))
  : list VideoItem :=
  match root_files with
  | [] => videos_model
  | (path, name) :: rest =>
      let video_item :=
        mkVideoItem ("video_" ++ str_of_nat (length videos_model))
          (fst (OsPath.splitext name)) "Root" 0
          (progress_percentage progress_data path) path false None 0 in
      add_root_files progress_data (videos_model ++ [video_item]) rest
  end.

(** [build_folder_model]: the model handed to the library view. *)
Definition build_folder_model (progress_data : ProgressData)
    (s : FolderStructure) : list VideoItem :=
  let folder_names := sorted_folder_names s in
  let videos_model := map (folder_item s) folder_names in
  match files_of s with
  | Some (f :: fl) =>
      let root_files := sorted_by String.leb (fun x => lower (snd x)) (f :: fl) in
      let videos_model :=
        match folder_names with
        | [] => videos_model
        | _ => videos_model ++ [root_header (length root_files)]
        end in
      add_root_files progress_data videos_model root_files
  | _ => videos_model
  end.

(** The rows a scan of [d] that is not cancelled ends in; [None] where
    [scan_folder_thread] is. *)
Definition load_videos_from_folder (progress_data : ProgressData)
    (folder_path : string) (d : Dir) : option (list VideoItem) :=
  match scan_folder_thread (fun _ => false) folder_path d with
  | Some s => Some (build_folder_model progress_data (folder_structure s))
  | None => None
  end.

(** [_add_subfolders_to_model], which no other method of the window calls.
    [VideoItem] is imported inside [build_folder_model] and
    [on_back_to_library_clicked] only and is no name of this method: with no
    sub-folder the loop does not run and the model stays as it is, and the
    row of the first sub-folder is not made, the call raising [NameError]
    ([None]). *)
Definition _add_subfolders_to_model (progress_data : ProgressData)
    (s : FolderStructure) (parent_folder_name : string)
    (videos_model : list VideoItem) (level : nat) : option (list VideoItem) :=
  match sorted_folder_names s with
  | [] => Some videos_model
  | _ :: _ => None
  end.

(** A value of [self.progress_data]: the record [on_video_progress_updated]
    writes, or another dict (one read from [progress.json], or the one under
    ['_app_state']), of which the rows read the ['percentage'] only. *)
Inductive ProgressEntry : Type :=
| Watched (position percentage : Q) (last_watched : Z)
| OtherEntry (percentage : option Q).

(** The attributes of the window the progress code reads and writes.  A
    flag that is not set yet ([hasattr] false) is [false]. *)
Record Window : Type := mkWindow {
  current_video_path : option string;
  _in_progress_save : bool;
  _loading_folder : bool;
  _saving_progress : bool;
  progress_entries : string -> option ProgressEntry
}.

(** [LocaldemyWindow.get_video_progress] *)
Definition get_video_progress (self : Window) (video_path : string)
  : option ProgressEntry :=
  progress_entries self video_path.

(** [self.progress_data] as the rows read it:
    [self.progress_data[file_path].get('percentage', 0.0)]. *)
Definition progress_data_of (self : Window) : ProgressData :=
  fun path =>
    match progress_entries self path with
    | Some (Watched _ percentage _) => Some (Some percentage)
    | Some (OtherEntry percentage) => Some percentage
    | None => None
    end.

(** [LocaldemyWindow.on_video_progress_updated]; [duration] is
    [video_player.duration] and [now] is [GLib.get_real_time() // 1000000].
    The update of the library view and the save that is scheduled ten
    seconds later are not part of the result. *)
Definition on_video_progress_updated (self : Window) (duration position : Q)
    (now : Z) : Window :=
  match current_video_path self with
  | None => self
  | Some path =>
      if String.eqb path "" then self
      else if _in_progress_save self || (_loading_folder self || _saving_progress self)
      then self
      else if negb (Qle_bool duration (inject_Z 0)) then
        mkWindow (current_video_path self) (_in_progress_save self)
          (_loading_folder self) true
          (fun k => if String.eqb k path
                    then Some (Watched position (position / duration)%Q now)
                    else progress_entries self k)
      else self
  end.

(** [LocaldemyWindow._save_progress_without_reload], but for the file it
    writes.  [makedirs_ok] says whether [os.makedirs] went through: when it
    raises, ['_app_state'] is not touched; the flags are cleared in either
    case.  The keys set in ['_app_state'] are not ['percentage']. *)
Definition _save_progress_without_reload (makedirs_ok : bool) (self : Window)
  : Window :=
  if _in_progress_save self then self
  else
    mkWindow (current_video_path self) false (_loading_folder self) false
      (fun k =>
         if makedirs_ok && String.eqb k "_app_state" then
           match progress_entries self k with
           | Some e => Some e
           | None => Some (OtherEntry None)
           end
         else progress_entries self k).

End LocaldemyWindow.

Import VideoPlayer LocaldemyWindow.

(* ================================================================= *)
(** ** Vocabulary of the statements and sample inputs *)

(** Ascending by start time. *)
Definition start_le (a b : Cue) : Prop := num_le (start a) (start b) = true.

(** An order of all numbers that is [<=] on those other than [nan] and puts
    [nan] last. *)
Definition le_nan_last (a b : PyNum) : bool :=
  match a, b with
  | _, NaN => true
  | NaN, _ => false
  | _, _ => num_le a b
  end.

(** Three blocks, the second of which starts at [nan] seconds. *)
Definition nan_srt : string :=
  "1" ++ PyStr.LF ++ "00:00:03,000 --> 00:00:04,000" ++ PyStr.LF ++ "a"
  ++ PyStr.LF ++ PyStr.LF ++
  "2" ++ PyStr.LF ++ "00:00:nan --> 00:00:05,000" ++ PyStr.LF ++ "b"
  ++ PyStr.LF ++ PyStr.LF ++
  "3" ++ PyStr.LF ++ "00:00:01,000 --> 00:00:02,000" ++ PyStr.LF ++ "c".

(** One block whose timing line ends before it starts. *)
Definition backwards_srt : string :=
  "1" ++ PyStr.LF ++ "00:00:05,000 --> 00:00:01,000" ++ PyStr.LF ++ "Hi".

(** [start <= t <= end] for the bounds of [c]. *)
Definition inside (t : Q) (c : Cue) : Prop :=
  num_le (start c) (Finite t) = true /\ num_le (Finite t) (end_ c) = true.

(** [t] is not within the bounds of [c]. *)
Definition outside (t : Q) (c : Cue) : Prop := ~ inside t c.

(** A track of one cue whose text has an ampersand. *)
Definition ampersand_track : list Cue :=
  [mkCue (Finite (inject_Z 0)) (Finite (inject_Z 10)) "a & b"].

(** [lines[1]] of a block. *)
Definition timing_line (block : string) : string :=
  nth 1 (PyStr.split PyStr.LF block) "".


(** A block whose arrow has no spaces around it. *)
Definition unspaced_block : string :=
  "1" ++ PyStr.LF ++ "00:00:01,000-->00:00:02,000" ++ PyStr.LF ++ "Hi".






(** A well-formed one-cue SRT text. *)
Definition sample_srt : string :=
  "1" ++ PyStr.LF ++ "00:00:01,000 --> 00:00:02,000" ++ PyStr.LF ++ "Hello".

(** Scenario B: [movie.en.srt] and [movie.srt] beside [movie.mp4]. *)
Definition movie_fs (srt_size : Z) : FileSystem :=
  mkFS (fun p => PyStr.mem p ["/videos/movie.mp4"; "/videos/movie.en.srt";
                              "/videos/movie.srt"; "/videos"; "/"])
       (fun p => PyStr.mem p ["/videos"; "/"])
       (fun p => if String.eqb p "/videos"
                 then ["movie.mp4"; "movie.srt"; "movie.en.srt"]
                 else if String.eqb p "/" then ["videos"] else [])
       (fun p => if String.eqb p "/videos/movie.mp4" then 5000000%Z else srt_size)
       (fun _ => sample_srt).

(** A file system in which the only subtitle beside the video has no
    language tag. *)
Definition plain_fs (srt_size : Z) : FileSystem :=
  mkFS (fun p => PyStr.mem p ["/videos/movie.mp4"; "/videos/movie.srt"; "/videos"; "/"])
       (fun p => PyStr.mem p ["/videos"; "/"])
       (fun p => if String.eqb p "/videos" then ["movie.mp4"; "movie.srt"]
                 else if String.eqb p "/" then ["videos"] else [])
       (fun p => if String.eqb p "/videos/movie.mp4" then 5000000%Z else srt_size)
       (fun _ => sample_srt).

(** A player that has not looked for subtitles yet, with a backend that
    takes what it is given. *)
Definition fresh_player : Player :=
  mkPlayer None None None "" "" None None 0 false false false 0
    (Some (mkPlaybin None 0 None (fun _ => true))).









(** A size above the limit of [_validate_subtitle_file]. *)
Definition eleven_mb : Z := 11 * 1024 * 1024.

(** Scenario A: [a.mp4] in the root and [Lectures/b.mkv]. *)
Definition scenario_a : Dir :=
  mkDir ["a.mp4"] [("Lectures", mkDir ["b.mkv"] [])].

(** The files under ['_files'] of a level, none when the key is absent. *)
Definition own_files (s : FolderStructure) : list (string * string) :=
  match files_of s with
  | Some l => l
  | None => []
  end.

(** [sorted(files, key=lambda x: x[1].lower())] *)
Definition sorted_files (l : list (string * string)) : list (string * string) :=
  PyStr.sorted_by String.leb (fun x => PyStr.lower (snd x)) l.

(** The row of a root file, but for its number. *)
Definition is_root_file_row (progress_data : ProgressData) (r : VideoItem) : Prop :=
  is_folder r = false /\ indent_level r = 0 /\ details r = "Root" /\
  folder_name r = None /\
  progress r = progress_percentage progress_data (file_path r).

(** The plain files of a directory. *)
Definition dir_files (d : Dir) : list string :=
  match d with mkDir files _ => files end.

(** [subdir keep d parts d']: going down from [d] along the names [parts],
    each of them accepted by [keep], ends in the directory [d']. *)
Inductive subdir (keep : string -> bool) : Dir -> list string -> Dir -> Prop :=
| subdir_here d : subdir keep d [] d
| subdir_down files dirs name sub parts d' :
    In (name, sub) dirs -> keep name = true ->
    subdir keep sub parts d' ->
    subdir keep (mkDir files dirs) (name :: parts) d'.

(** The part of [walk] that goes down into the sub-directories. *)
Fixpoint walk_down (keep : string -> bool) (top : string) (parts : list string)
    (l : list (string * Dir)) : list Visit :=
  match l with
  | [] => []
  | (name, sub) :: l' =>
      if keep name
      then walk keep (OsPath.join top name) (parts ++ [name]) sub
           ++ walk_down keep top parts l'
      else walk_down keep top parts l'
  end.

(** [folder_structure[p1][p2]...['_files']], empty when a key is missing. *)
Fixpoint files_at (s : FolderStructure) (parts : list string) : list (string * string) :=
  match parts with
  | [] => match files_of s with
          | Some l => l
          | None => []
          end
  | p :: ps =>
      match lookup p (subfolders_of s) with
      | Some sub => files_at sub ps
      | None => []
      end
  end.

(** No directory reached through names that do not start with a dot is
    named [_files]. *)
Fixpoint well_named (d : Dir) : bool :=
  match d with
  | mkDir _ dirs =>
      (fix all (l : list (string * Dir)) : bool :=
         match l with
         | [] => true
         | (name, sub) :: l' =>
             (if not_hidden name
              then negb (String.eqb name "_files") && well_named sub
              else true) && all l'
         end) dirs
  end.

(** [well_named] for the sub-directories of a directory. *)
Fixpoint well_named_dirs (l : list (string * Dir)) : bool :=
  match l with
  | [] => true
  | (name, sub) :: l' =>
      (if not_hidden name
       then negb (String.eqb name "_files") && well_named sub
       else true) && well_named_dirs l'
  end.

(** The structure a visit leaves when it neither raises nor leaves the
    structures held here. *)
Definition stored (parts : list string) (videos : list (string * string))
    (s : FolderStructure) : FolderStructure :=
  match before_files parts with
  | None => add_files parts videos s
  | Some (pre, _) => add_files pre [] s
  end.

(** The pairs [(file_path, file)] one visit adds. *)
Definition videos_of (v : Visit) : list (string * string) :=
  map (fun f => (OsPath.join (root v) f, f)) (filter is_video (filenames v)).

(** What a visit leaves of the three results when it neither raises nor
    leaves the structures held here. *)
Definition scan_step (acc : Scan) (v : Visit) : Scan :=
  mkScan (all_files acc ++ videos_of v)
         (stored (path_parts v) (videos_of v) (folder_structure acc))
         (total_files acc + length (filter is_video (filenames v))).

(** A root with a video and a directory named [_files] that holds one. *)
Definition files_named_dir : Dir :=
  mkDir ["a.mp4"] [("_files", mkDir ["b.mp4"] [])].

(** A folder with a dot-named video, a hidden directory and a visible one. *)
Definition hidden_video_dir : Dir :=
  mkDir [".trailer.mp4"; "notes.txt"]
        [(".cache", mkDir ["skipped.mp4"] []);
         ("Season 1", mkDir [".e01.MKV"] [])].

(* ================================================================= *)
(** ** Vocabulary of the further properties *)

(** A WebVTT text of two cues, the later one first. *)
Definition sample_vtt : string :=
  "WEBVTT" ++ PyStr.LF ++ PyStr.LF ++
  "00:01.000 --> 00:02.000" ++ PyStr.LF ++ "Hello" ++ PyStr.LF ++ PyStr.LF ++
  "00:00.500 --> 00:00.900" ++ PyStr.LF ++ "First".

(** What the loop keeps true: the texts of the entries so far are not
    empty, and no collected line is. *)
Definition vtt_texts_ok (st : VTT.State) : Prop :=
  Forall (fun c => text c <> "") (VTT.done st) /\
  (0 < VTT.appended st -> VTT.cur_text st <> "") /\
  Forall (fun l => l <> "") (VTT.text_lines st).

(** The subtitle flags of the playbin are all set in [f]. *)
Definition has_subtitle_flags (f : Z) : Prop :=
  Z.land f required_flags = required_flags.

(** A player without a media backend. *)
Definition player_without_playbin : Player :=
  mkPlayer None None None "" "old text" (Some "old") (Some []) 7 false false false 0 None.

(** [filename] is listed in [dir] and has a subtitle extension. *)
Definition listed_subtitle (fs : FileSystem) (dir filename : string) : Prop :=
  exists_ fs dir = true /\ isdir fs dir = true /\
  In filename (listdir fs dir) /\
  PyStr.mem (PyStr.lower (snd (OsPath.splitext filename))) subtitle_extensions = true.

(** The order [all_files.sort(key=lambda x: x[1].lower())] sorts by. *)
Definition name_le (a b : string * string) : Prop :=
  String.leb (PyStr.lower (snd a)) (PyStr.lower (snd b)) = true.

(** A folder without any video, beside one with a video. *)
Definition empty_subfolder_dir : Dir :=
  mkDir [] [("Notes", mkDir ["readme.txt"] []); ("Week 1", mkDir ["intro.mp4"] [])].

(** A folder whose only video lies one level further down. *)
Definition nested_course_dir : Dir :=
  mkDir [] [("Course", mkDir ["syllabus.pdf"] [("Week 1", mkDir ["intro.mp4"] [])])].

(** The videos a visit with the path [parts] adds, none for another path. *)
Definition videos_at (parts : list string) (v : Visit) : list (string * string) :=
  if list_eq_dec string_dec (path_parts v) parts then videos_of v else [].

(** A window that plays [/root/a.mp4] and has no progress on record. *)
Definition watching_window : Window :=
  mkWindow (Some "/root/a.mp4") false false false (fun _ => None).

(** No save and no folder load is under way. *)
Definition idle (w : Window) : Prop :=
  _in_progress_save w = false /\ _loading_folder w = false /\
  _saving_progress w = false.

(* ================================================================= *)
(** ** Facts about sorting *)

Section SortingFacts.
Context {A K : Type} (le : K -> K -> bool) (key : A -> K).

Lemma insert_by_perm (x : A) (l : list A) :
  Permutation (x :: l) (PyStr.insert_by le key x l).
Proof.
  induction l as [|y l IH]; simpl.
  - apply Permutation_refl.
  - destruct (le (key x) (key y)).
    + apply Permutation_refl.
    + eapply perm_trans; [apply perm_swap|].
      now apply perm_skip.
Qed.

Lemma sorted_by_perm (l : list A) : Permutation l (PyStr.sorted_by le key l).
Proof.
  induction l as [|x l IH]; simpl.
  - apply perm_nil.
  - eapply perm_trans; [apply perm_skip, IH|].
    apply insert_by_perm.
Qed.

Lemma sorted_by_In (l : list A) (x : A) :
  In x (PyStr.sorted_by le key l) <-> In x l.
Proof.
  split; apply Permutation_in;
    [apply Permutation_sym|]; apply sorted_by_perm.
Qed.

Lemma sorted_by_length (l : list A) :
  length (PyStr.sorted_by le key l) = length l.
Proof. symmetry. apply Permutation_length, sorted_by_perm. Qed.

(** Sortedness needs of the key order only that it is total and
    transitive. *)
Hypothesis le_total : forall a b, le a b = false -> le b a = true.
Hypothesis le_trans : forall a b c, le a b = true -> le b c = true -> le a c = true.

Let R (a b : A) : Prop := le (key a) (key b) = true.

Lemma insert_by_sorted (x : A) (l : list A) :
  StronglySorted R l -> StronglySorted R (PyStr.insert_by le key x l).
Proof.
  induction 1 as [|y l Hs IH Hy]; simpl.
  - constructor; [constructor | constructor].
  - destruct (le (key x) (key y)) eqn:E.
    + constructor.
      * now constructor.
      * constructor; [exact E|].
        rewrite Forall_forall in *. intros z Hz.
        unfold R. eapply le_trans; [exact E | now apply Hy].
    + constructor; [exact IH|].
      rewrite Forall_forall in *. intros z Hz.
      apply (Permutation_in _ (Permutation_sym (insert_by_perm x l))) in Hz.
      destruct Hz as [<- | Hz].
      * now apply le_total.
      * now apply Hy.
Qed.

Lemma sorted_by_sorted (l : list A) : StronglySorted R (PyStr.sorted_by le key l).
Proof.
  induction l as [|x l IH]; simpl.
  - constructor.
  - now apply insert_by_sorted.
Qed.
End SortingFacts.

Lemma Qle_bool_total (a b : Q) : Qle_bool a b = false -> Qle_bool b a = true.
Proof.
  intros H. apply Qle_bool_iff.
  destruct (Qlt_le_dec b a) as [Hlt | Hle].
  - now apply Qlt_le_weak.
  - apply Qle_bool_iff in Hle. congruence.
Qed.

Lemma Qle_bool_trans (a b c : Q) :
  Qle_bool a b = true -> Qle_bool b c = true -> Qle_bool a c = true.
Proof.
  rewrite !Qle_bool_iff. apply Qle_trans.
Qed.

Lemma num_le_trans (a b c : PyNum) :
  num_le a b = true -> num_le b c = true -> num_le a c = true.
Proof.
  destruct a, b, c; cbn [num_le]; try discriminate; try reflexivity.
  apply Qle_bool_trans.
Qed.

Lemma le_nan_last_total (a b : PyNum) :
  le_nan_last a b = false -> le_nan_last b a = true.
Proof.
  destruct a, b; cbn [le_nan_last num_le]; try discriminate; try reflexivity.
  apply Qle_bool_total.
Qed.

Lemma le_nan_last_trans (a b c : PyNum) :
  le_nan_last a b = true -> le_nan_last b c = true -> le_nan_last a c = true.
Proof.
  destruct a, b, c; cbn [le_nan_last num_le]; try discriminate; try reflexivity.
  apply Qle_bool_trans.
Qed.

(** On numbers other than [nan], "not smaller" is [<=]. *)
Lemma not_lt_le (a b : PyNum) :
  a <> NaN -> b <> NaN -> negb (num_lt b a) = le_nan_last a b.
Proof.
  intros Ha Hb. destruct a, b; try contradiction; cbn [num_lt le_nan_last num_le];
    try reflexivity.
  apply negb_involutive.
Qed.

Lemma le_nan_last_le (a b : PyNum) :
  a <> NaN -> b <> NaN -> le_nan_last a b = num_le a b.
Proof. intros Ha Hb. destruct a, b; try contradiction; reflexivity. Qed.

Section SortingAgree.
Context {A K : Type} (le1 le2 : K -> K -> bool) (key : A -> K).

Lemma insert_by_agree (x : A) (l : list A) :
  (forall y, In y l -> le1 (key x) (key y) = le2 (key x) (key y)) ->
  PyStr.insert_by le1 key x l = PyStr.insert_by le2 key x l.
Proof.
  induction l as [|y l IH]; intros H; [reflexivity|].
  cbn [PyStr.insert_by]. rewrite (H y (or_introl eq_refl)).
  destruct (le2 (key x) (key y)); [reflexivity|].
  f_equal. apply IH. intros z Hz. apply H. right. exact Hz.
Qed.

Lemma sorted_by_agree (l : list A) :
  (forall x y, In x l -> In y l -> le1 (key x) (key y) = le2 (key x) (key y)) ->
  PyStr.sorted_by le1 key l = PyStr.sorted_by le2 key l.
Proof.
  induction l as [|x l IH]; intros H; [reflexivity|].
  cbn [PyStr.sorted_by fold_right].
  change (fold_right (PyStr.insert_by le1 key) [] l) with (PyStr.sorted_by le1 key l).
  change (fold_right (PyStr.insert_by le2 key) [] l) with (PyStr.sorted_by le2 key l).
  rewrite IH.
  - apply insert_by_agree. intros y Hy. apply sorted_by_In in Hy.
    apply H; [left; reflexivity | right; exact Hy].
  - intros y z Hy Hz. apply H; right; assumption.
Qed.
End SortingAgree.

Lemma StronglySorted_within {A : Type} (R R' : A -> A -> Prop) (l : list A) :
  (forall x y, In x l -> In y l -> R x y -> R' x y) ->
  StronglySorted R l -> StronglySorted R' l.
Proof.
  intros H Hs. induction Hs as [|x l Hs IH Hx]; constructor.
  - apply IH. intros y z Hy Hz. apply H; right; assumption.
  - rewrite Forall_forall in *. intros y Hy.
    apply H; [left; reflexivity | right; exact Hy | apply Hx; exact Hy].
Qed.

Lemma sort_by_start_perm (l : list Cue) : Permutation l (sort_by_start l).
Proof.
  unfold sort_by_start, PyStr.list_sort.
  destruct (PyStr.no_descent num_lt start l);
    [apply Permutation_refl | apply sorted_by_perm].
Qed.

Lemma sort_by_start_In (l : list Cue) (c : Cue) :
  In c (sort_by_start l) <-> In c l.
Proof.
  split; apply Permutation_in;
    [apply Permutation_sym|]; apply sort_by_start_perm.
Qed.

Lemma no_descent_sorted (l : list Cue) :
  Forall (fun c => start c <> NaN) l ->
  PyStr.no_descent num_lt start l = true -> Sorted start_le l.
Proof.
  induction l as [|x l IH]; intros Hn Hd; [constructor|].
  inversion Hn as [|? ? Hx Hl]; subst.
  destruct l as [|y l']; [repeat constructor|].
  cbn [PyStr.no_descent] in Hd. apply andb_true_iff in Hd. destruct Hd as [Hxy Hd].
  constructor; [apply IH; assumption|].
  constructor. unfold start_le.
  inversion Hl as [|? ? Hy _]; subst.
  rewrite <- (le_nan_last_le _ _ Hx Hy), <- (not_lt_le _ _ Hx Hy). exact Hxy.
Qed.

(** The sort leaves the cues ascending by start when no start is [nan]. *)
Lemma sort_by_start_sorted (l : list Cue) :
  Forall (fun c => start c <> NaN) l -> StronglySorted start_le (sort_by_start l).
Proof.
  intros Hn. unfold sort_by_start, PyStr.list_sort.
  destruct (PyStr.no_descent num_lt start l) eqn:Ed.
  - apply Sorted_StronglySorted.
    + intros a b c. unfold start_le. apply num_le_trans.
    + apply no_descent_sorted; assumption.
  - rewrite Forall_forall in Hn.
    rewrite (sorted_by_agree (fun a b => negb (num_lt b a)) le_nan_last start l).
    + apply (StronglySorted_within
               (fun a b => le_nan_last (start a) (start b) = true) start_le).
      * intros x y Hx Hy Hxy. apply sorted_by_In in Hx. apply sorted_by_In in Hy.
        unfold start_le. rewrite <- (le_nan_last_le _ _ (Hn x Hx) (Hn y Hy)).
        exact Hxy.
      * apply (sorted_by_sorted le_nan_last start le_nan_last_total le_nan_last_trans).
    + intros x y Hx Hy. apply not_lt_le; apply Hn; assumption.
Qed.


(* ================================================================= *)
(** ** The SRT parser *)

Lemma collect_In (blocks : list string) (c : Cue) :
  In c (SRT.collect blocks) <->
  exists block, In block blocks /\ SRT.parse_block block = Some c.
Proof.
  induction blocks as [|b bs IH]; simpl.
  - split; [tauto | intros (? & [] & _)].
  - destruct (SRT.parse_block b) as [c'|] eqn:E; simpl; rewrite IH; split.
    + intros [<- | (b' & Hb' & Hp)]; eauto.
    + intros (b' & [<- | Hb'] & Hp); [left; congruence | eauto].
    + intros (b' & Hb' & Hp); eauto.
    + intros (b' & [<- | Hb'] & Hp); [congruence | eauto].
Qed.

Lemma parse_unfold (content : string) :
  SRT.parse content = sort_by_start (SRT.collect (SRT.blocks_of content)).
Proof. destruct content; reflexivity. Qed.

(** What a block has to look like to give a cue, and what the cue is. *)
Lemma parse_block_Some (block : string) (c : Cue) :
  SRT.parse_block block = Some c <->
  let lines := PyStr.split PyStr.LF block in
  let times := PyStr.split " --> " (nth 1 lines "") in
  3 <= length lines /\ length times = 2 /\
  SRT.time_to_ms (PyStr.strip (nth 0 times "")) = Some (start c) /\
  SRT.time_to_ms (PyStr.strip (nth 1 times "")) = Some (end_ c) /\
  text c = PyStr.join PyStr.LF (skipn 2 lines).
Proof.
  unfold SRT.parse_block. cbv zeta.
  destruct (Nat.ltb_spec (length (PyStr.split PyStr.LF block)) 3) as [Hl | Hl].
  { split; [discriminate | intros (H & _); lia]. }
  destruct (Nat.eqb_spec
              (length (PyStr.split " --> " (nth 1 (PyStr.split PyStr.LF block) ""))) 2)
    as [Ht | Ht]; simpl.
  2: { split; [discriminate | intros (_ & H & _); contradiction]. }
  destruct (SRT.time_to_ms (PyStr.strip (nth 0 _ ""))) as [s|].
  2: { split; [discriminate | intros (_ & _ & H & _); discriminate]. }
  destruct (SRT.time_to_ms (PyStr.strip (nth 1 _ ""))) as [e|].
  2: { split; [discriminate | intros (_ & _ & _ & H & _); discriminate]. }
  split.
  - intros [= <-]. simpl. auto.
  - intros (_ & _ & [= Hs] & [= He] & Hx). destruct c as [s' e' t']. simpl in *.
    now subst.
Qed.

(** C3 (as the code has it).  The cues of the SRT parser are the cues of
    the single blocks, rearranged by the sort, and the two bounds of a cue
    are the conversions of the two tokens of its timing line.  They are
    ascending by [start] when no start is [nan]; a seconds field that reads
    [nan] is taken by [float], and a list with such a start can stay out of
    order, as the three blocks of [nan_srt] do.  The parser never compares
    [start] with [end]: a cue has [start <= end] only when its timing line
    is written that way. *)
Theorem SRT_parse_sorted (content : string) :
  ((forall c, In c (SRT.parse content) -> start c <> NaN) ->
   StronglySorted start_le (SRT.parse content)) /\
  Permutation (SRT.collect (SRT.blocks_of content)) (SRT.parse content) /\
  (forall c, In c (SRT.parse content) ->
     exists block a b,
       In block (SRT.blocks_of content) /\
       PyStr.split " --> " (nth 1 (PyStr.split PyStr.LF block) "") = [a; b] /\
       SRT.time_to_ms (PyStr.strip a) = Some (start c) /\
       SRT.time_to_ms (PyStr.strip b) = Some (end_ c)) /\
  (map text (SRT.parse nan_srt) = ["a"; "b"; "c"] /\
   map start (SRT.parse nan_srt)
   = [Finite (3000000 # 1000); NaN; Finite (1000000 # 1000)] /\
   ~ StronglySorted start_le (SRT.parse nan_srt)).
Proof.
  rewrite parse_unfold. split; [|split; [|split]].
  - intros Hn. rewrite <- parse_unfold in Hn. rewrite parse_unfold in Hn.
    assert (Hall : Forall (fun c => start c <> NaN) (SRT.collect (SRT.blocks_of content))).
    { apply Forall_forall. intros c Hc. apply Hn. apply sort_by_start_In. exact Hc. }
    apply sort_by_start_sorted. exact Hall.
  - apply sort_by_start_perm.
  - intros c Hc. apply sort_by_start_In, collect_In in Hc.
    destruct Hc as (block & Hb & Hp). apply parse_block_Some in Hp. cbv zeta in Hp.
    destruct Hp as (_ & Hlen & Hs & He & _).
    destruct (PyStr.split " --> " (nth 1 (PyStr.split PyStr.LF block) ""))
      as [|a [|b [|? ?]]] eqn:E; try discriminate.
    exists block, a, b. simpl in *. auto.
  - split; [vm_compute; reflexivity|]. split; [vm_compute; reflexivity|].
    intros H.
    assert (E : SRT.parse nan_srt =
                [mkCue (Finite (3000000 # 1000)) (Finite (4000000 # 1000)) "a";
                 mkCue NaN (Finite (5000000 # 1000)) "b";
                 mkCue (Finite (1000000 # 1000)) (Finite (2000000 # 1000)) "c"])
      by (vm_compute; reflexivity).
    rewrite E in H. inversion H as [|? ? _ Hall]; subst.
    inversion Hall as [|? ? Hab _]; subst.
    unfold start_le in Hab. cbn [start num_le] in Hab. discriminate Hab.
Qed.

(** A well-formed text has no [nan] start and comes out ascending. *)
Lemma SRT_parse_sorted_witness :
  (forall c, In c (SRT.parse sample_srt) -> start c <> NaN) /\
  StronglySorted start_le (SRT.parse sample_srt).
Proof.
  assert (H : forall c, In c (SRT.parse sample_srt) -> start c <> NaN).
  { intros c Hc. vm_compute in Hc. destruct Hc as [<- | []]. discriminate. }
  split; [exact H|].
  exact (proj1 (SRT_parse_sorted sample_srt) H).
Defined.

(** A block whose timing line runs backwards gives a cue that ends before
    it starts. *)
Lemma SRT_parse_start_after_end :
  exists c, SRT.parse backwards_srt = [c] /\ num_le (start c) (end_ c) = false.
Proof.
  eexists. split; [vm_compute; reflexivity|]. vm_compute. reflexivity.
Qed.

(* ================================================================= *)
(** ** Cue lookup *)

Lemma covers_iff (t : Q) (c : Cue) : covers t c = true <-> inside t c.
Proof. unfold covers, inside. apply andb_true_iff. Qed.

Section Lookup.
Variable format : string -> string.
Variable get : list Cue -> Q -> string.
Hypothesis get_nil : forall t, get [] t = "".
Hypothesis get_cons : forall c l t,
    get (c :: l) t = if covers t c then format (text c) else get l t.

Lemma lookup_first (track : list Cue) (t : Q) :
  (exists before c after,
      track = before ++ c :: after /\
      Forall (fun c' => covers t c' = false) before /\
      covers t c = true /\
      get track t = format (text c)) \/
  (Forall (fun c' => covers t c' = false) track /\ get track t = "").
Proof.
  induction track as [|c track IH].
  - right. split; [constructor | apply get_nil].
  - rewrite get_cons. destruct (covers t c) eqn:E.
    + left. exists [], c, track. repeat split; auto.
    + destruct IH as [(before & c' & after & -> & Hb & Hc & Hg) | (Hall & Hg)].
      * left. exists (c :: before), c', after. repeat split; auto.
      * right. split; auto.
Qed.
End Lookup.

Lemma covers_false (t : Q) (c : Cue) : covers t c = false <-> outside t c.
Proof.
  unfold outside. rewrite <- covers_iff.
  destruct (covers t c); intuition congruence.
Qed.

(** C4 (as the code has it).  For every track and timestamp [t], the lookup
    of either parser returns the display-formatted text
    ([format_subtitle_text]) of the first cue, in track order, with
    [start <= t <= end], both ends included, and the empty string when no
    cue contains [t]. *)
Theorem get_subtitle_at_time_first_formatted (track : list Cue) (t : Q) :
  ((exists before c after,
       track = before ++ c :: after /\
       Forall (outside t) before /\
       inside t c /\
       SRT.get_subtitle_at_time track t = SRT.format_subtitle_text (text c) /\
       VTT.get_subtitle_at_time track t = VTT.format_subtitle_text (text c))
   \/
   (Forall (outside t) track /\
    SRT.get_subtitle_at_time track t = "" /\
    VTT.get_subtitle_at_time track t = "")).
Proof.
  destruct (lookup_first SRT.format_subtitle_text SRT.get_subtitle_at_time
              (fun _ => eq_refl) (fun _ _ _ => eq_refl) track t)
    as [(before & c & after & -> & Hb & Hc & Hg) | (Hall & Hg)].
  - left. exists before, c, after.
    split; [reflexivity|]. split; [|split; [|split]].
    + eapply Forall_impl; [|exact Hb]. intros; now apply covers_false.
    + now apply covers_iff in Hc.
    + exact Hg.
    + clear Hg. induction Hb as [|x l Hx _ IH]; simpl.
      * now rewrite Hc.
      * now rewrite Hx.
  - right. repeat split.
    + eapply Forall_impl; [|exact Hall]. intros; now apply covers_false.
    + exact Hg.
    + clear Hg. induction Hall as [|x l Hx _ IH]; simpl; [reflexivity|now rewrite Hx].
Qed.

(** A cue text with [&] does not come back as written. *)
Lemma get_subtitle_at_time_not_raw :
  SRT.get_subtitle_at_time ampersand_track (inject_Z 5) = "a &amp; b" /\
  VTT.get_subtitle_at_time ampersand_track (inject_Z 5) = "a &amp; b" /\
  SRT.get_subtitle_at_time ampersand_track (inject_Z 5) <> "a & b".
Proof. repeat split; try reflexivity. vm_compute. discriminate. Qed.


(* ================================================================= *)
(** ** Splitting *)

Lemma append_assoc (a b c : string) : ((a ++ b) ++ c = a ++ (b ++ c))%string.
Proof. induction a; simpl; congruence. Qed.

Lemma append_empty_r (a : string) : (a ++ "" = a)%string.
Proof. induction a; simpl; congruence. Qed.

(** A string without the separator is one piece. *)
Lemma split_go_no_sep (sep s cur : string) :
  PyStr.contains sep s = false ->
  PyStr.split_go sep s 0 cur = [(cur ++ s)%string].
Proof.
  revert cur. induction s as [|c s IH]; intros cur H.
  - simpl. now rewrite append_empty_r.
  - cbn [PyStr.contains] in H. apply orb_false_iff in H. destruct H as [Hp Hc].
    cbn [PyStr.split_go]. rewrite Hp. rewrite IH by exact Hc.
    now rewrite append_assoc.
Qed.

Lemma split_no_sep (sep s : string) :
  PyStr.contains sep s = false -> PyStr.split sep s = [s].
Proof. intros H. unfold PyStr.split. now rewrite split_go_no_sep. Qed.

Lemma collect_app (l1 l2 : list string) :
  SRT.collect (l1 ++ l2) = SRT.collect l1 ++ SRT.collect l2.
Proof.
  induction l1 as [|b l1 IH]; simpl; [reflexivity|].
  destruct (SRT.parse_block b); simpl; now rewrite IH.
Qed.

(** C9.  In the SRT parser a block whose second line does not contain the
    separator [ --> ], with a space on each side, gives no cue: the block is
    passed over and the cues are those of the other blocks.  This holds in
    particular for a line that has [-->] without the spaces. *)
Theorem SRT_timing_line_needs_spaced_arrow (block : string) :
  PyStr.contains " --> " (timing_line block) = false ->
  SRT.parse_block block = None /\
  forall before after,
    SRT.collect (before ++ block :: after) = SRT.collect (before ++ after).
Proof.
  intros H.
  assert (Hn : SRT.parse_block block = None).
  { unfold SRT.parse_block. cbv zeta.
    destruct (length (PyStr.split PyStr.LF block) <? 3); [reflexivity|].
    fold (timing_line block). now rewrite (split_no_sep _ _ H). }
  split; [exact Hn|].
  intros before after. rewrite !collect_app. simpl. now rewrite Hn.
Qed.

(** A timing line with [-->] and no spaces around it. *)
Lemma SRT_timing_line_needs_spaced_arrow_witness :
  PyStr.contains "-->" (timing_line unspaced_block) = true /\
  SRT.parse_block unspaced_block = None /\
  SRT.parse unspaced_block = [].
Proof.
  split; [reflexivity|].
  split.
  - apply (SRT_timing_line_needs_spaced_arrow unspaced_block). reflexivity.
  - reflexivity.
Defined.

(* ================================================================= *)
(** ** Time tokens *)









(* ================================================================= *)
(** ** The subtitle path resolver *)




(** The result is the match of the first rank that has one. *)
Lemma found_subtitle_first_rank (fs : FileSystem) (v : string) :
  match found_subtitle fs v with
  | Some p =>
      exists k, 1 <= k <= 6 /\ pattern fs v k = Some p /\
                forall m, m < k -> pattern fs v m = None
  | None => forall k, pattern fs v k = None
  end.
Proof.
  unfold found_subtitle, or_else.
  destruct (pattern1 fs v) as [p1|] eqn:E1.
  { exists 1. split; [lia|]. split; [exact E1|].
    intros m Hm.
    destruct m as [|m]; [exact eq_refl|].
    exfalso. lia. }
  destruct (pattern2 fs v) as [p2|] eqn:E2.
  { exists 2. split; [lia|]. split; [exact E2|].
    intros m Hm.
    destruct m as [|m]; [exact eq_refl|].
    destruct m as [|m]; [exact E1|].
    exfalso. lia. }
  destruct (pattern3 fs v) as [p3|] eqn:E3.
  { exists 3. split; [lia|]. split; [exact E3|].
    intros m Hm.
    destruct m as [|m]; [exact eq_refl|].
    destruct m as [|m]; [exact E1|].
    destruct m as [|m]; [exact E2|].
    exfalso. lia. }
  destruct (pattern4 fs v) as [p4|] eqn:E4.
  { exists 4. split; [lia|]. split; [exact E4|].
    intros m Hm.
    destruct m as [|m]; [exact eq_refl|].
    destruct m as [|m]; [exact E1|].
    destruct m as [|m]; [exact E2|].
    destruct m as [|m]; [exact E3|].
    exfalso. lia. }
  destruct (pattern5 fs v) as [p5|] eqn:E5.
  { exists 5. split; [lia|]. split; [exact E5|].
    intros m Hm.
    destruct m as [|m]; [exact eq_refl|].
    destruct m as [|m]; [exact E1|].
    destruct m as [|m]; [exact E2|].
    destruct m as [|m]; [exact E3|].
    destruct m as [|m]; [exact E4|].
    exfalso. lia. }
  destruct (pattern6 fs v) as [p6|] eqn:E6.
  { exists 6. split; [lia|]. split; [exact E6|].
    intros m Hm.
    destruct m as [|m]; [exact eq_refl|].
    destruct m as [|m]; [exact E1|].
    destruct m as [|m]; [exact E2|].
    destruct m as [|m]; [exact E3|].
    destruct m as [|m]; [exact E4|].
    destruct m as [|m]; [exact E5|].
    exfalso. lia. }
  intros k.
  destruct k as [|k]; [exact eq_refl|].
  destruct k as [|k]; [exact E1|].
  destruct k as [|k]; [exact E2|].
  destruct k as [|k]; [exact E3|].
  destruct k as [|k]; [exact E4|].
  destruct k as [|k]; [exact E5|].
  destruct k as [|k]; [exact E6|].
  exact eq_refl.
Qed.

Lemma first_some_Some {A B : Type} (f : A -> option B) (l : list A) (y : B) :
  first_some f l = Some y -> exists x, In x l /\ f x = Some y.
Proof.
  induction l as [|x l IH]; cbn [first_some]; [discriminate|].
  destruct (f x) as [z|] eqn:E.
  - intros [= <-]. exists x. split; [left; reflexivity | exact E].
  - intros H. destruct (IH H) as (x' & Hin & Hx').
    exists x'. split; [right; exact Hin | exact Hx'].
Qed.










(* ================================================================= *)
(** ** Validation by size *)

Lemma validate_by_size (fs : FileSystem) (path : string) :
  (getsize fs path = 0 \/ size_limit < getsize fs path)%Z ->
  validate fs path = DoesNotExist \/
  validate fs path = UnsupportedExtension \/
  validate fs path = FileEmpty \/
  validate fs path = FileTooLarge.
Proof.
  intros Hsize. unfold validate.
  destruct (exists_ fs path); cbn [negb]; [|left; reflexivity].
  destruct (PyStr.mem _ _); cbn [negb]; [|right; left; reflexivity].
  destruct (Z.eqb_spec (getsize fs path) 0) as [E0 | E0];
    [right; right; left; reflexivity|].
  destruct (Z.ltb_spec size_limit (getsize fs path)) as [El | El];
    [right; right; right; reflexivity|].
  exfalso. destruct Hsize as [H | H]; [contradiction | lia].
Qed.

(** C5 (as the code has it).  [_validate_subtitle_file], which screens the
    file a user picks, rejects every file of 0 bytes or of more than 10 MB
    at one of the returns in front of the read of its content; the caller
    gets [False], [set_subtitle_file] is not reached and the player is left
    as it was.  [set_subtitle_file] itself, which also serves the automatic
    search, rejects the empty file only. *)
Theorem validation_rejects_by_size (fs : FileSystem) (self : Player) (path : string) :
  (getsize fs path = 0 \/ size_limit < getsize fs path)%Z ->
  (forall valid, validate fs path <> Content valid) /\
  _validate_subtitle_file fs path = false /\
  _on_subtitle_file_selected fs self path = (false, self) /\
  ((getsize fs path = 0)%Z -> set_subtitle_file fs self path = (false, self)).
Proof.
  intros Hsize. pose proof (validate_by_size fs path Hsize) as Hv.
  assert (Hb : _validate_subtitle_file fs path = false).
  { unfold _validate_subtitle_file.
    destruct Hv as [-> | [-> | [-> | ->]]]; reflexivity. }
  split.
  { intros valid. destruct Hv as [-> | [-> | [-> | ->]]]; discriminate. }
  split; [exact Hb|]. split.
  - unfold _on_subtitle_file_selected. rewrite Hb. reflexivity.
  - intros H0. unfold set_subtitle_file.
    destruct (String.eqb path "" || negb (exists_ fs path)); [reflexivity|].
    rewrite H0. reflexivity.
Qed.

(** An 11 MB [.srt] is rejected on selection; the same file at 100 bytes
    is accepted. *)
Lemma validation_rejects_by_size_witness :
  getsize (plain_fs eleven_mb) "/videos/movie.srt" = eleven_mb /\
  _validate_subtitle_file (plain_fs eleven_mb) "/videos/movie.srt" = false /\
  _on_subtitle_file_selected (plain_fs eleven_mb) fresh_player "/videos/movie.srt"
  = (false, fresh_player) /\
  _validate_subtitle_file (plain_fs 100) "/videos/movie.srt" = true.
Proof.
  split; [reflexivity|].
  destruct (validation_rejects_by_size (plain_fs eleven_mb) fresh_player
              "/videos/movie.srt" (or_intror eq_refl)) as (_ & Hb & Hsel & _).
  split; [exact Hb|]. split; [exact Hsel|]. vm_compute. reflexivity.
Defined.

(** Found next to the video, a subtitle above the limit is taken. *)
Lemma load_subtitles_takes_large_file :
  (size_limit < getsize (plain_fs eleven_mb) "/videos/movie.srt")%Z /\
  fst (load_subtitles (plain_fs eleven_mb) fresh_player "/videos/movie.mp4") = true /\
  subtitle_file (snd (load_subtitles (plain_fs eleven_mb) fresh_player "/videos/movie.mp4"))
  = Some "/videos/movie.srt".
Proof. vm_compute. repeat split; reflexivity. Qed.


(* ================================================================= *)
(** ** Asking twice for the subtitles of one video *)

Lemma set_subtitle_file_keeps_check (fs : FileSystem) (self : Player) (p : string) :
  _last_subtitle_check (snd (set_subtitle_file fs self p)) = _last_subtitle_check self.
Proof.
  unfold set_subtitle_file.
  destruct (String.eqb p "" || negb (exists_ fs p)); [reflexivity|].
  destruct (getsize fs p =? 0)%Z; [reflexivity|].
  destruct (playbin self) as [pb|]; [|reflexivity].
  destruct (accepts pb p); reflexivity.
Qed.

Lemma load_subtitles_marks_path (fs : FileSystem) (self : Player) (v : string) :
  v <> "" ->
  _last_subtitle_check (snd (load_subtitles fs self v)) = Some v.
Proof.
  intros Hv. unfold load_subtitles.
  destruct (String.eqb_spec v "") as [E | _]; [contradiction|].
  destruct (_last_subtitle_check self) as [p|] eqn:Ep.
  - destruct (String.eqb_spec p v) as [-> | Hne]; [exact Ep|].
    destruct (found_subtitle fs v) as [found|]; [|reflexivity].
    pose proof (set_subtitle_file_keeps_check fs
      (mkPlayer (Some v) (_subtitle_not_found self) None
         (subtitle_file_label self) "" None (subtitle_parser self)
         (_subtitle_timer_id self) (subtitle_info_bar_revealed self)
         (subtitle_button_active self) (subtitles_enabled self)
         (pending_selection_checks self) (playbin self)) found) as Hk.
    destruct (set_subtitle_file fs _ found) as [[|] self2]; exact Hk.
  - destruct (found_subtitle fs v) as [found|]; [|reflexivity].
    pose proof (set_subtitle_file_keeps_check fs
      (mkPlayer (Some v) (_subtitle_not_found self) None
         (subtitle_file_label self) "" None (subtitle_parser self)
         (_subtitle_timer_id self) (subtitle_info_bar_revealed self)
         (subtitle_button_active self) (subtitles_enabled self)
         (pending_selection_checks self) (playbin self)) found) as Hk.
    destruct (set_subtitle_file fs _ found) as [[|] self2]; exact Hk.
Qed.

(** C6 (as the code has it).  A second [load_subtitles] for the same video
    path, with no new video loaded in between, changes nothing in the player
    and returns [False], whatever the first request returned. *)
Theorem load_subtitles_again_is_skipped (fs : FileSystem) (self : Player) (v : string) :
  load_subtitles fs (snd (load_subtitles fs self v)) v
  = (false, snd (load_subtitles fs self v)).
Proof.
  destruct (String.eqb_spec v "") as [-> | Hv]; [reflexivity|].
  pose proof (load_subtitles_marks_path fs self v Hv) as Hm.
  unfold load_subtitles at 1.
  destruct (String.eqb_spec v "") as [E | _]; [contradiction|].
  rewrite Hm. rewrite String.eqb_refl. reflexivity.
Qed.

(** The first request finds and sets a subtitle; the second one does not
    return what the first did. *)
Lemma load_subtitles_again_returns_false :
  fst (load_subtitles (movie_fs 100) fresh_player "/videos/movie.mp4") = true /\
  fst (load_subtitles (movie_fs 100)
         (snd (load_subtitles (movie_fs 100) fresh_player "/videos/movie.mp4"))
         "/videos/movie.mp4") = false.
Proof. vm_compute. split; reflexivity. Qed.


(* ================================================================= *)
(** ** Replacing a text by itself *)

Lemma startswith_drop (p s : string) :
  PyStr.startswith s p = true ->
  s = (p ++ PyStr.drop (String.length p) s)%string.
Proof.
  revert s. induction p as [|a p IH]; intros s H.
  - reflexivity.
  - destruct s as [|b s]; [discriminate|].
    cbn [PyStr.startswith] in H. apply andb_true_iff in H. destruct H as [Hab Hp].
    apply Ascii.eqb_eq in Hab. subst b.
    cbn [String.append String.length PyStr.drop]. f_equal. apply IH. exact Hp.
Qed.

Lemma replace_go_same (a : ascii) (old' s : string) (k : nat) :
  PyStr.replace_go (String a old') (String a old') s k = PyStr.drop k s.
Proof.
  revert k. induction s as [|c s IH]; intros k.
  - destruct k; reflexivity.
  - destruct k as [|k].
    + cbn [PyStr.replace_go PyStr.drop].
      destruct (PyStr.startswith (String c s) (String a old')) eqn:E.
      * rewrite IH. cbn [String.length]. rewrite Nat.sub_1_r. cbn [Nat.pred].
        pose proof (startswith_drop _ _ E) as Hs.
        cbn [String.length PyStr.drop] in Hs. symmetry. exact Hs.
      * rewrite IH. reflexivity.
    + cbn [PyStr.replace_go PyStr.drop]. apply IH.
Qed.

Lemma replace_same (a : ascii) (old' s : string) :
  PyStr.replace (String a old') (String a old') s = s.
Proof. unfold PyStr.replace. apply replace_go_same. Qed.

Lemma restore_tag_id (t tag : string) : VTT.restore_tag t tag = t.
Proof.
  unfold VTT.restore_tag. cbn [String.append].
  rewrite !replace_same. reflexivity.
Qed.

(** C7 (what the code does).  The WebVTT formatter
    returns [<b>Hi</b>] with its angle brackets escaped: the loop over the
    whitelisted tags replaces each tag by itself, so the formatter is the
    escaping of [&], [<] and [>] and nothing else, for every text.  The SRT
    formatter does turn [{b}Hi{/b}] into [<b>Hi</b>]. *)
Theorem VTT_format_leaves_tags_escaped :
  VTT.format_subtitle_text "<b>Hi</b>" = "&lt;b&gt;Hi&lt;/b&gt;" /\
  SRT.format_subtitle_text "{b}Hi{/b}" = "<b>Hi</b>" /\
  forall t,
    VTT.format_subtitle_text t =
    PyStr.replace ">" "&gt;" (PyStr.replace "<" "&lt;" (PyStr.replace "&" "&amp;" t)).
Proof.
  split; [vm_compute; reflexivity|].
  split; [vm_compute; reflexivity|].
  intros t. unfold VTT.format_subtitle_text, VTT.allowed_tags.
  cbn [fold_left]. rewrite !restore_tag_id. reflexivity.
Qed.


(* ================================================================= *)
(** ** The rows of the library *)

Lemma add_root_files_rows (pd : ProgressData) (root_files : list (string * string)) :
  forall model,
  exists rows,
    add_root_files pd model root_files = model ++ rows /\
    map file_path rows = map fst root_files /\
    map title rows = map (fun x => fst (OsPath.splitext (snd x))) root_files /\
    Forall (is_root_file_row pd) rows.
Proof.
  induction root_files as [|[path name] rest IH]; intros model.
  - exists []. cbn [add_root_files map]. rewrite app_nil_r. repeat split. constructor.
  - cbn [add_root_files].
    destruct (IH (model ++
      [mkVideoItem ("video_" ++ PyStr.str_of_nat (length model))
         (fst (OsPath.splitext name)) "Root" 0
         (progress_percentage pd path) path false None 0]))
      as (rows & Heq & Hp & Ht & Hall).
    eexists (_ :: rows). rewrite Heq, <- app_assoc. cbn [app].
    split; [reflexivity|]. cbn [map fst snd file_path title].
    rewrite Hp, Ht. split; [reflexivity|]. split; [reflexivity|].
    constructor; [|exact Hall]. unfold is_root_file_row. cbn. repeat split.
Qed.

(** C1 (as the code has it).  For a root that holds [a.mp4] and a sub-folder
    [Lectures] with [b.mkv], the library rows are, in order: the folder row
    of Lectures, the synthetic Root Files folder row and the video row of
    [a], all three at indent 0; the video [b] has no row.  In general
    [build_folder_model] gives one folder row at indent 0 for each top-level
    folder, in sorted order, and no row for what a folder contains; after
    them, when the root has files of its own, come the Root Files row (only
    if there are folders) and one indent-0 row for each root file, ordered
    by lower-cased file name. *)
Theorem build_folder_model_lists_folders_only :
  (forall pd,
     load_videos_from_folder pd "/root" scenario_a =
     Some [mkVideoItem "folder_Lectures" "📁 Lectures" "1 videos" 0 (inject_Z 0)
             "" true (Some "Lectures") 0;
           mkVideoItem "folder_root" "📁 Root Files" "1 videos" 0 (inject_Z 0)
             "" true (Some ".") 0;
           mkVideoItem "video_2" "a" "Root" 0
             (progress_percentage pd "/root/a.mp4") "/root/a.mp4" false None 0]) /\
  (forall pd s,
     exists video_rows,
       build_folder_model pd s =
       map (folder_item s) (sorted_folder_names s) ++
       match sorted_folder_names s, own_files s with
       | _ :: _, _ :: _ => [root_header (length (own_files s))]
       | _, _ => []
       end ++ video_rows /\
       map file_path video_rows = map fst (sorted_files (own_files s)) /\
       map title video_rows =
       map (fun x => fst (OsPath.splitext (snd x))) (sorted_files (own_files s)) /\
       Forall (is_root_file_row pd) video_rows /\
       Forall (fun r => indent_level r = 0) (build_folder_model pd s)).
Proof.
  split.
  { intros pd. vm_compute. reflexivity. }
  intros pd s.
  assert (Hfold : Forall (fun r => indent_level r = 0)
                    (map (folder_item s) (sorted_folder_names s))).
  { apply Forall_forall. intros r Hr. apply in_map_iff in Hr.
    destruct Hr as (n & <- & _). reflexivity. }
  unfold build_folder_model, own_files.
  destruct (files_of s) as [[|f fl]|] eqn:Ef.
  - exists []. cbn [map]. rewrite !app_nil_r.
    destruct (sorted_folder_names s); cbn [app]; rewrite ?app_nil_r;
      repeat split; try exact Hfold; constructor.
  - fold (sorted_files (f :: fl)).
    assert (Hlen : length (sorted_files (f :: fl)) = length (f :: fl))
      by apply sorted_by_length.
    destruct (sorted_folder_names s) as [|n ns] eqn:En.
    + destruct (add_root_files_rows pd (sorted_files (f :: fl)) (map (folder_item s) []))
        as (rows & Heq & Hp & Ht & Hall).
      exists rows. rewrite Heq. cbn [map app].
      repeat split; try assumption.
      eapply Forall_impl; [|exact Hall]. intros r Hr. apply Hr.
    + destruct (add_root_files_rows pd (sorted_files (f :: fl))
                  (map (folder_item s) (n :: ns) ++
                   [root_header (length (sorted_files (f :: fl)))]))
        as (rows & Heq & Hp & Ht & Hall).
      exists rows. rewrite Heq, Hlen, <- app_assoc.
      repeat split; try assumption.
      rewrite <- En in *. apply Forall_app. split; [exact Hfold|].
      apply Forall_app. split; [constructor; [reflexivity|constructor]|].
      eapply Forall_impl; [|exact Hall]. intros r Hr. apply Hr.
  - exists []. cbn [map]. rewrite !app_nil_r.
    destruct (sorted_folder_names s); cbn [app]; rewrite ?app_nil_r;
      repeat split; try exact Hfold; constructor.
Qed.

(** Scenario A gives three rows, none of them for [b.mkv]. *)
Lemma scenario_a_has_three_rows :
  exists rows,
    load_videos_from_folder (fun _ => None) "/root" scenario_a = Some rows /\
    map (fun r => (title r, is_folder r, indent_level r)) rows =
    [("📁 Lectures", true, 0); ("📁 Root Files", true, 0); ("a", false, 0)].
Proof. eexists. split; vm_compute; reflexivity. Qed.

(** The unused [_add_subfolders_to_model] adds nothing for scenario A: it
    raises at the row of [Lectures]. *)
Example add_subfolders_scenario_a :
  option_map (fun s => _add_subfolders_to_model (fun _ => None)
                         (folder_structure s) "root" [] 0)
    (scan_folder_thread (fun _ => false) "/root" scenario_a)
  = Some None.
Proof. vm_compute. reflexivity. Qed.


(* ================================================================= *)
(** ** The walk *)

Lemma Dir_induction (P : Dir -> Prop) :
  (forall files dirs, Forall (fun nd => P (snd nd)) dirs -> P (mkDir files dirs)) ->
  forall d, P d.
Proof.
  intros H. fix IH 1. intros [files dirs]. apply H.
  induction dirs as [|[n sub] l IHl]; constructor; [apply IH | exact IHl].
Qed.

Lemma walk_unfold (keep : string -> bool) (top : string) (parts : list string)
    (files : list string) (dirs : list (string * Dir)) :
  walk keep top parts (mkDir files dirs) =
  mkVisit top parts files :: walk_down keep top parts dirs.
Proof.
  cbn [walk]. f_equal.
  induction dirs as [|[name sub] l IH]; [reflexivity|].
  cbn [walk_down]. rewrite <- IH. reflexivity.
Qed.

Lemma walk_down_In (keep : string -> bool) (top : string) (parts : list string)
    (l : list (string * Dir)) (v : Visit) :
  In v (walk_down keep top parts l) <->
  exists name sub, In (name, sub) l /\ keep name = true /\
                   In v (walk keep (OsPath.join top name) (parts ++ [name]) sub).
Proof.
  induction l as [|[n s] l IH]; cbn [walk_down].
  - split; [intros [] | intros (? & ? & [] & _)].
  - destruct (keep n) eqn:E.
    + rewrite in_app_iff, IH. split.
      * intros [H | (name & sub & Hin & Hk & Hv)].
        -- exists n, s. split; [left; reflexivity|]. split; assumption.
        -- exists name, sub. split; [right; exact Hin|]. split; assumption.
      * intros (name & sub & [Heq | Hin] & Hk & Hv).
        -- inversion Heq; subst. left. exact Hv.
        -- right. exists name, sub. split; [exact Hin|]. split; assumption.
    + rewrite IH. split.
      * intros (name & sub & Hin & Hk & Hv).
        exists name, sub. split; [right; exact Hin|]. split; assumption.
      * intros (name & sub & [Heq | Hin] & Hk & Hv).
        -- inversion Heq; subst. congruence.
        -- exists name, sub. split; [exact Hin|]. split; assumption.
Qed.

(** The visits are the directories reached through kept names only. *)
Lemma walk_In (keep : string -> bool) (d : Dir) :
  forall top pre v,
    In v (walk keep top pre d) <->
    exists parts d',
      subdir keep d parts d' /\
      v = mkVisit (fold_left OsPath.join parts top) (pre ++ parts) (dir_files d').
Proof.
  induction d as [files dirs IH] using Dir_induction. intros top pre v.
  rewrite walk_unfold. cbn [In]. rewrite walk_down_In. split.
  - intros [<- | (name & sub & Hin & Hk & Hv)].
    + exists [], (mkDir files dirs). split; [constructor|].
      cbn [fold_left dir_files]. rewrite app_nil_r. reflexivity.
    + rewrite Forall_forall in IH. apply (IH (name, sub) Hin) in Hv.
      destruct Hv as (parts & d' & Hs & ->).
      exists (name :: parts), d'. split; [econstructor; eassumption|].
      cbn [fold_left]. rewrite <- app_assoc. reflexivity.
  - intros (parts & d' & Hs & ->). inversion Hs; subst.
    + left. cbn [fold_left dir_files]. rewrite app_nil_r. reflexivity.
    + right. exists name, sub. split; [assumption|]. split; [assumption|].
      rewrite Forall_forall in IH. apply (IH (name, sub)); [assumption|].
      exists parts0, d'. split; [assumption|].
      cbn [fold_left]. rewrite <- app_assoc. reflexivity.
Qed.


(* ================================================================= *)
(** ** The folder structure a scan builds *)

Lemma lookup_update_sub (p q : string) (f : FolderStructure -> FolderStructure)
    (subs : list (string * FolderStructure)) :
  lookup q (update_sub p f subs) =
  if String.eqb q p
  then Some (f (match lookup p subs with
                | Some v => v
                | None => empty_folder
                end))
  else lookup q subs.
Proof.
  induction subs as [|[k v] subs IH]; cbn [update_sub lookup].
  - destruct (String.eqb q p); reflexivity.
  - destruct (String.eqb_spec p k) as [-> | Hpk]; cbn [lookup].
    + destruct (String.eqb_spec q k) as [-> | Hqk]; reflexivity.
    + rewrite IH. destruct (String.eqb_spec q k) as [-> | Hqk].
      * destruct (String.eqb_spec k p) as [-> | _]; [contradiction|reflexivity].
      * reflexivity.
Qed.

Lemma files_at_empty (parts : list string) : files_at empty_folder parts = [].
Proof. destruct parts; reflexivity. Qed.

Lemma files_at_add_files (parts : list string) (videos : list (string * string)) :
  forall s parts',
    files_at (add_files parts videos s) parts' =
    files_at s parts' ++
    (if list_eq_dec string_dec parts parts' then videos else []).
Proof.
  induction parts as [|p ps IH]; intros s parts'.
  - cbn [add_files]. destruct parts' as [|q qs].
    + destruct (list_eq_dec string_dec [] []) as [_ | N]; [|contradiction].
      destruct videos as [|x xs]; [rewrite app_nil_r; reflexivity|].
      cbn [files_at files_of]. destruct (files_of s); reflexivity.
    + destruct (list_eq_dec string_dec [] (q :: qs)) as [E | _]; [discriminate|].
      rewrite app_nil_r. destruct videos; [reflexivity|].
      cbn [files_at subfolders_of]. reflexivity.
  - cbn [add_files]. destruct parts' as [|q qs].
    + destruct (list_eq_dec string_dec (p :: ps) []) as [E | _]; [discriminate|].
      rewrite app_nil_r. cbn [files_at files_of]. reflexivity.
    + cbn [files_at subfolders_of]. rewrite lookup_update_sub.
      destruct (String.eqb_spec q p) as [-> | Hqp].
      * rewrite IH.
        destruct (list_eq_dec string_dec ps qs) as [-> | Hne].
        -- destruct (list_eq_dec string_dec (p :: qs) (p :: qs)) as [_ | N];
             [|contradiction].
           destruct (lookup p (subfolders_of s)); [reflexivity|].
           rewrite files_at_empty. reflexivity.
        -- destruct (list_eq_dec string_dec (p :: ps) (p :: qs)) as [E | _];
             [inversion E; contradiction|].
           destruct (lookup p (subfolders_of s)); [reflexivity|].
           rewrite files_at_empty. reflexivity.
      * destruct (list_eq_dec string_dec (p :: ps) (q :: qs)) as [E | _];
          [inversion E; subst; contradiction|].
        rewrite app_nil_r. reflexivity.
Qed.

Lemma before_files_None (parts : list string) :
  before_files parts = None <-> ~ In "_files" parts.
Proof.
  induction parts as [|p ps IH]; cbn [before_files In].
  - split; [intros _ [] | reflexivity].
  - destruct (String.eqb_spec p "_files") as [E | E].
    + split; [discriminate | intros H; exfalso; apply H; left; exact E].
    + destruct (before_files ps) as [[pre post]|].
      * split; [discriminate|]. intros H. exfalso.
        assert (Hn : ~ In "_files" ps) by (intros Hin; apply H; right; exact Hin).
        apply IH in Hn. discriminate Hn.
      * split; [|reflexivity]. intros _ [H | H]; [exact (E H)|].
        revert H. apply IH. reflexivity.
Qed.

Lemma before_files_Some (parts pre post : list string) :
  before_files parts = Some (pre, post) ->
  parts = pre ++ "_files" :: post /\ ~ In "_files" pre.
Proof.
  revert pre. induction parts as [|p ps IH]; intros pre; cbn [before_files];
    [discriminate|].
  destruct (String.eqb_spec p "_files") as [E | E].
  - intros [= <- <-]. subst p. split; [reflexivity | intros []].
  - destruct (before_files ps) as [[pre' post']|]; [|discriminate].
    intros [= <- <-]. destruct (IH pre' eq_refl) as [-> Hn].
    split; [reflexivity|]. intros [H | H]; [exact (E H) | exact (Hn H)].
Qed.

Lemma store_Done (parts : list string) (videos : list (string * string))
    (s s' : FolderStructure) :
  store parts videos s = Done s' -> s' = stored parts videos s.
Proof.
  unfold store, stored. destruct (before_files parts) as [[pre post]|].
  - destruct (files_of (level_at s pre)); [|discriminate].
    destruct post; [|discriminate]. destruct videos; [|discriminate].
    intros [= <-]. reflexivity.
  - intros [= <-]. reflexivity.
Qed.

Lemma store_plain (parts : list string) (videos : list (string * string))
    (s : FolderStructure) :
  ~ In "_files" parts -> store parts videos s = Done (stored parts videos s).
Proof.
  intros H. apply before_files_None in H. unfold store, stored. rewrite H.
  reflexivity.
Qed.

Lemma scan_visit_Done (acc acc' : Scan) (v : Visit) :
  scan_visit acc v = Done acc' -> acc' = scan_step acc v.
Proof.
  unfold scan_visit, scan_step, videos_of. cbv zeta.
  destruct (store _ _ _) as [s'| | |] eqn:E; try discriminate.
  apply store_Done in E. intros [= <-]. rewrite E. reflexivity.
Qed.

Lemma scan_visit_plain (acc : Scan) (v : Visit) :
  ~ In "_files" (path_parts v) -> scan_visit acc v = Done (scan_step acc v).
Proof.
  intros H. unfold scan_visit, scan_step, videos_of. cbv zeta.
  rewrite (store_plain _ _ _ H). reflexivity.
Qed.

Lemma scan_loop_Done (cancelled : nat -> bool) (visits : list Visit) :
  forall n acc s,
    scan_loop cancelled n acc visits = Done s ->
    s = fold_left scan_step visits acc.
Proof.
  induction visits as [|v visits IH]; intros n acc s; cbn [scan_loop fold_left].
  - intros [= <-]. reflexivity.
  - destruct (scan_visit acc v) as [acc'| | |] eqn:E; try discriminate.
    apply scan_visit_Done in E. subst acc'.
    destruct (cancelled n); [discriminate|]. apply IH.
Qed.

(** A scan of directories none of which is named [_files] ends cancelled
    or with the results of all the visits. *)
Lemma scan_loop_plain (cancelled : nat -> bool) (visits : list Visit) :
  Forall (fun v => ~ In "_files" (path_parts v)) visits ->
  forall n acc,
    ((exists k, k < length visits /\ cancelled (n + k) = true) /\
     scan_loop cancelled n acc visits = Cancelled) \/
    ((forall k, k < length visits -> cancelled (n + k) = false) /\
     scan_loop cancelled n acc visits = Done (fold_left scan_step visits acc)).
Proof.
  induction 1 as [|v visits Hv _ IH]; intros n acc; cbn [scan_loop fold_left length].
  - right. split; [intros k Hk; inversion Hk | reflexivity].
  - rewrite (scan_visit_plain acc v Hv). destruct (cancelled n) eqn:E.
    + left. split; [|reflexivity]. exists 0. split; [apply Nat.lt_0_succ|].
      rewrite Nat.add_0_r. exact E.
    + destruct (IH (S n) (scan_step acc v)) as [((k & Hk & Hc) & Hl) | (Hall & Hl)].
      * left. split; [|exact Hl]. exists (S k).
        split; [apply (proj1 (Nat.succ_lt_mono _ _)); exact Hk|].
        rewrite Nat.add_succ_r. exact Hc.
      * right. split; [|exact Hl]. intros k Hk. destruct k as [|k].
        -- rewrite Nat.add_0_r. exact E.
        -- rewrite Nat.add_succ_r. apply (Hall k).
           apply (proj2 (Nat.succ_lt_mono _ _)). exact Hk.
Qed.

Lemma files_at_stored (parts : list string) (videos : list (string * string))
    (s : FolderStructure) (parts' : list string) :
  ~ In "_files" parts' ->
  files_at (stored parts videos s) parts' =
  files_at s parts' ++
  (if list_eq_dec string_dec parts parts' then videos else []).
Proof.
  intros Hn. unfold stored.
  destruct (before_files parts) as [[pre post]|] eqn:E;
    [|apply files_at_add_files].
  apply before_files_Some in E. destruct E as [-> _].
  rewrite files_at_add_files.
  destruct (list_eq_dec string_dec (pre ++ "_files" :: post) parts') as [Eq | _].
  - exfalso. apply Hn. rewrite <- Eq. apply in_or_app. right. left. reflexivity.
  - destruct (list_eq_dec string_dec pre parts'); reflexivity.
Qed.

Lemma files_at_scan (visits : list Visit) :
  forall acc parts,
    ~ In "_files" parts ->
    files_at (folder_structure (fold_left scan_step visits acc)) parts =
    files_at (folder_structure acc) parts ++
    flat_map (fun v => if list_eq_dec string_dec (path_parts v) parts
                       then videos_of v else []) visits.
Proof.
  induction visits as [|v visits IH]; intros acc parts Hn.
  - cbn [fold_left flat_map]. rewrite app_nil_r. reflexivity.
  - cbn [fold_left flat_map]. rewrite (IH _ _ Hn).
    change (folder_structure (scan_step acc v))
      with (stored (path_parts v) (videos_of v) (folder_structure acc)).
    rewrite (files_at_stored _ _ _ _ Hn), <- app_assoc. reflexivity.
Qed.


Lemma fold_scan_all_files (visits : list Visit) :
  forall acc,
    all_files (fold_left scan_step visits acc) =
    all_files acc ++ flat_map videos_of visits.
Proof.
  induction visits as [|v visits IH]; intros acc; cbn [fold_left flat_map].
  - rewrite app_nil_r. reflexivity.
  - rewrite IH.
    change (all_files (scan_step acc v)) with (all_files acc ++ videos_of v).
    rewrite <- app_assoc. reflexivity.
Qed.

Lemma well_named_unfold (files : list string) (dirs : list (string * Dir)) :
  well_named (mkDir files dirs) = well_named_dirs dirs.
Proof.
  cbn [well_named]. induction dirs as [|[name sub] l IH]; [reflexivity|].
  cbn [well_named_dirs]. rewrite IH. reflexivity.
Qed.

Lemma well_named_dirs_In (dirs : list (string * Dir)) (name : string) (sub : Dir) :
  well_named_dirs dirs = true -> In (name, sub) dirs -> not_hidden name = true ->
  name <> "_files" /\ well_named sub = true.
Proof.
  induction dirs as [|[n d] l IH]; intros Hw Hin Hk; [destruct Hin|].
  cbn [well_named_dirs] in Hw. apply andb_true_iff in Hw. destruct Hw as [Hh Hl].
  destruct Hin as [E | Hin]; [|exact (IH Hl Hin Hk)].
  injection E as -> ->. rewrite Hk in Hh. apply andb_true_iff in Hh.
  destruct Hh as [Hne Hs]. split; [|exact Hs].
  intros ->. discriminate Hne.
Qed.

Lemma well_named_subdir (d : Dir) (parts : list string) (d' : Dir) :
  subdir not_hidden d parts d' -> well_named d = true -> ~ In "_files" parts.
Proof.
  induction 1 as [d | files dirs name sub parts d' Hin Hk _ IH]; intros Hw.
  - intros [].
  - rewrite well_named_unfold in Hw.
    destruct (well_named_dirs_In dirs name sub Hw Hin Hk) as [Hne Hs].
    intros [E | E]; [exact (Hne E) | exact (IH Hs E)].
Qed.

Lemma well_named_visits (folder_path : string) (d : Dir) :
  well_named d = true ->
  Forall (fun v => ~ In "_files" (path_parts v)) (walk not_hidden folder_path [] d).
Proof.
  intros Hw. apply Forall_forall. intros v Hv.
  apply walk_In in Hv. destruct Hv as (parts & d' & Hs & ->).
  cbn [path_parts app]. exact (well_named_subdir d parts d' Hs Hw).
Qed.



Example scan_hidden_video_dir :
  option_map folder_structure
    (scan_folder_thread (fun _ => false) "/lib" hidden_video_dir)
  = Some (Folder (Some [("/lib/.trailer.mp4", ".trailer.mp4")])
            [("Season 1", Folder (Some [("/lib/Season 1/.e01.MKV", ".e01.MKV")]) [])]).
Proof. vm_compute. reflexivity. Qed.

(** With a video in the root, a directory named [_files] that holds a video
    makes the scan raise: ['_files'] is the key of the root's list. *)
Example scan_files_named_dir :
  scan_loop (fun _ => false) 0 (mkScan [] empty_folder 0)
    (walk not_hidden "/lib" [] files_named_dir) = Raised /\
  scan_folder_thread (fun _ => false) "/lib" files_named_dir = None.
Proof. split; vm_compute; reflexivity. Qed.

(* ================================================================= *)
(** * Further properties of the code *)

(* ================================================================= *)
(** ** WebVTT time tokens *)

Lemma replace_go_absent (old new s : string) :
  PyStr.contains old s = false -> PyStr.replace_go old new s 0 = s.
Proof.
  induction s as [|c s IH]; intros H; [reflexivity|].
  cbn [PyStr.contains] in H. apply orb_false_iff in H. destruct H as [Hp Hc].
  cbn [PyStr.replace_go]. rewrite Hp, IH by exact Hc. reflexivity.
Qed.

Lemma startswith_empty (t : string) : PyStr.startswith t "" = true.
Proof. destruct t; reflexivity. Qed.

Lemma split_hours_prefix (t : string) :
  PyStr.split ":" ("00:" ++ t)%string = "00" :: PyStr.split ":" t.
Proof. unfold PyStr.split. cbn. rewrite startswith_empty. reflexivity. Qed.

(** X1.  A WebVTT time token without the hours field ([MM:SS.mmm]) stands for
    the same number of milliseconds as the token with [00:] put in front of
    it. *)
Theorem VTT_time_to_ms_missing_hours (t : string) :
  length (PyStr.split ":" t) = 2 ->
  VTT.time_to_ms ("00:" ++ t)%string = VTT.time_to_ms t.
Proof.
  intros H. unfold VTT.time_to_ms. cbv zeta. rewrite split_hours_prefix.
  cbn [length nth]. rewrite H. cbn [Nat.eqb].
  change (PyStr.py_int "00") with (Some 0%Z).
  destruct (PyStr.split ":" t) as [|m [|s [|x l]]]; try discriminate.
  cbn [nth]. reflexivity.
Qed.

Lemma VTT_time_to_ms_missing_hours_witness :
  length (PyStr.split ":" "01:02.500") = 2 /\
  VTT.time_to_ms "00:01:02.500" = VTT.time_to_ms "01:02.500" /\
  VTT.time_to_ms "01:02.500" = Some (Finite (62500000 # 1000)).
Proof.
  split; [reflexivity|]. split.
  - apply (VTT_time_to_ms_missing_hours "01:02.500"). reflexivity.
  - vm_compute. reflexivity.
Defined.

(** X2.  On a time token that has no comma and does not split into exactly
    two fields at the colons, the WebVTT and the SRT [time_to_ms] agree: the
    same milliseconds, the same failure, or 0 for both.  They differ on
    two-field tokens, which the SRT parser reads as 0. *)
Theorem VTT_SRT_time_to_ms_agree (t : string) :
  PyStr.contains "," t = false ->
  length (PyStr.split ":" t) <> 2 ->
  VTT.time_to_ms t = SRT.time_to_ms t.
Proof.
  intros Hc Hn. unfold VTT.time_to_ms, SRT.time_to_ms, PyStr.replace. cbv zeta.
  rewrite (replace_go_absent _ _ _ Hc).
  destruct (Nat.eqb_spec (length (PyStr.split ":" t)) 3) as [E3 | E3];
    cbn [negb]; [reflexivity|].
  destruct (Nat.eqb_spec (length (PyStr.split ":" t)) 2) as [E2 | E2];
    [contradiction | reflexivity].
Qed.

Lemma VTT_SRT_time_to_ms_agree_witness :
  VTT.time_to_ms "01:02:03.250" = SRT.time_to_ms "01:02:03.250" /\
  SRT.time_to_ms "01:02:03.250" = Some (Finite (3723250000 # 1000)) /\
  VTT.time_to_ms "02:03.250" <> SRT.time_to_ms "02:03.250".
Proof.
  split; [|split].
  - apply (VTT_SRT_time_to_ms_agree "01:02:03.250"); [reflexivity|].
    vm_compute. intros H. discriminate H.
  - vm_compute. reflexivity.
  - vm_compute. intros H. discriminate H.
Defined.

(* ================================================================= *)
(** ** The WebVTT parser *)

(** X3.  When none of the cues the WebVTT parser ends with starts at
    [nan], they are sorted ascending by start time. *)
Theorem VTT_parse_sorted (content : string) :
  (forall c, In c (VTT.parse content) -> start c <> NaN) ->
  StronglySorted start_le (VTT.parse content).
Proof.
  unfold VTT.parse. destruct content as [|c content]; [constructor|].
  destruct (negb _); [constructor|]. cbv zeta. intros Hn.
  apply sort_by_start_sorted. apply Forall_forall. intros x Hx.
  apply Hn. apply sort_by_start_In. exact Hx.
Qed.

Lemma VTT_parse_sorted_witness :
  map text (VTT.parse sample_vtt) = ["First"; "Hello"] /\
  StronglySorted start_le (VTT.parse sample_vtt).
Proof.
  split; [vm_compute; reflexivity|].
  apply (VTT_parse_sorted sample_vtt).
  intros c Hc. vm_compute in Hc. destruct Hc as [<- | [<- | []]]; discriminate.
Defined.

Lemma join_nonempty (sep x : string) (l : list string) :
  x <> "" -> PyStr.join sep (x :: l) <> "".
Proof.
  intros Hx. unfold PyStr.join. cbn [String.concat].
  destruct l as [|y l]; [exact Hx|].
  destruct x as [|a x]; [contradiction|]. cbn [String.append]. discriminate.
Qed.

Lemma subtitles_of_texts (st : VTT.State) :
  vtt_texts_ok st -> Forall (fun c => text c <> "") (VTT.subtitles_of st).
Proof.
  intros (Hd & Hc & _). unfold VTT.subtitles_of.
  destruct (VTT.bounds st) as [[s e]|]; [|exact Hd].
  apply Forall_app. split; [exact Hd|].
  apply Forall_forall. intros c Hin.
  destruct (VTT.appended st) as [|k]; [destruct Hin|].
  apply repeat_spec in Hin. subst c. cbn [text]. apply Hc. lia.
Qed.

Lemma flush_texts (st : VTT.State) : vtt_texts_ok st -> vtt_texts_ok (VTT.flush st).
Proof.
  intros (Hd & Hc & Hl). unfold VTT.flush.
  destruct (VTT.bounds st) as [b|] eqn:Eb; [|exact (conj Hd (conj Hc Hl))].
  destruct (VTT.text_lines st) as [|x l] eqn:El;
    [unfold vtt_texts_ok; rewrite El; exact (conj Hd (conj Hc Hl))|].
  (split; [|split]); cbn [VTT.done VTT.appended VTT.cur_text VTT.text_lines].
  - exact Hd.
  - intros _. apply join_nonempty. inversion Hl; assumption.
  - exact Hl.
Qed.

Lemma step_texts (st : VTT.State) (raw_line : string) :
  vtt_texts_ok st -> vtt_texts_ok (VTT.step st raw_line).
Proof.
  intros H. unfold VTT.step. cbv zeta.
  destruct (String.eqb_spec (PyStr.strip raw_line) "") as [E | E]; cbn [orb];
    [exact H|].
  destruct (PyStr.startswith (PyStr.strip raw_line) "NOTE "); [exact H|].
  destruct (PyStr.contains " --> " (PyStr.strip raw_line)).
  - pose proof (flush_texts st H) as Hf.
    destruct (negb _); [exact Hf|].
    destruct (VTT.time_to_ms _) as [s|];
      [destruct (VTT.time_to_ms _) as [e|]|].
    + (split; [|split]); cbn [VTT.done VTT.appended VTT.cur_text VTT.text_lines].
      * apply subtitles_of_texts; exact Hf.
      * intros Hlt; inversion Hlt.
      * constructor.
    + (split; [|split]); cbn [VTT.done VTT.appended VTT.cur_text VTT.text_lines].
      * apply subtitles_of_texts; exact Hf.
      * intros Hlt; inversion Hlt.
      * apply Hf.
    + (split; [|split]); cbn [VTT.done VTT.appended VTT.cur_text VTT.text_lines].
      * apply subtitles_of_texts; exact Hf.
      * intros Hlt; inversion Hlt.
      * apply Hf.
  - destruct H as (Hd & Hc & Hl).
    destruct (VTT.bounds st); [|exact (conj Hd (conj Hc Hl))].
    (split; [|split]); cbn [VTT.done VTT.appended VTT.cur_text VTT.text_lines];
      try assumption.
    apply Forall_app. split; [exact Hl|]. constructor; [exact E|constructor].
Qed.

Lemma fold_step_texts (lines : list string) :
  forall st, vtt_texts_ok st -> vtt_texts_ok (fold_left VTT.step lines st).
Proof.
  induction lines as [|l lines IH]; intros st H; [exact H|].
  cbn [fold_left]. apply IH, step_texts, H.
Qed.

(** X4.  The WebVTT parser never yields a cue with an empty text: a timing
    line that no text line follows leaves no cue behind. *)
Theorem VTT_parse_texts_not_empty (content : string) :
  Forall (fun c => text c <> "") (VTT.parse content).
Proof.
  unfold VTT.parse. destruct content as [|c content]; [constructor|].
  destruct (negb _); [constructor|].
  apply Forall_forall. intros x Hx.
  apply (proj1 (sort_by_start_In _ _)) in Hx. revert x Hx. apply Forall_forall.
  apply subtitles_of_texts, flush_texts, fold_step_texts.
  split; [|split]; cbn; try constructor. intros Hlt; inversion Hlt.
Qed.

(* ================================================================= *)
(** ** What validation lets through *)

Lemma validate_subtitle_file_true (fs : FileSystem) (path : string) :
  _validate_subtitle_file fs path = true ->
  exists_ fs path = true /\
  PyStr.mem (PyStr.lower (snd (OsPath.splitext path)))
    [".srt"; ".vtt"; ".sub"; ".ssa"; ".ass"] = true /\
  (0 <> getsize fs path)%Z /\ (getsize fs path <= size_limit)%Z /\
  check_content (PyStr.lower (snd (OsPath.splitext path))) (read_head fs path) = true.
Proof.
  unfold _validate_subtitle_file, validate. cbv zeta.
  destruct (exists_ fs path); cbn [negb]; [|discriminate].
  destruct (PyStr.mem _ _); cbn [negb]; [|discriminate].
  destruct (Z.eqb_spec (getsize fs path) 0) as [E0 | E0]; [discriminate|].
  destruct (Z.ltb_spec size_limit (getsize fs path)) as [El | El]; [discriminate|].
  intros H. split; [reflexivity|]. split; [reflexivity|].
  split; [intros E; apply E0; symmetry; exact E|]. split; [exact El | exact H].
Qed.

(* ================================================================= *)
(** ** Setting a subtitle file *)

Lemma lor_keeps_required (f : Z) : has_subtitle_flags (Z.lor f required_flags).
Proof.
  unfold has_subtitle_flags. apply Z.bits_inj'. intros n Hn.
  rewrite Z.land_spec, Z.lor_spec.
  destruct (Z.testbit f n), (Z.testbit required_flags n); reflexivity.
Qed.

(** X6.  When [set_subtitle_file] reports success, the path is not empty, the
    file exists and is not empty, and the playbin has been given the file as
    its subtitle URI with the three subtitle flags (bits 4, 5 and 7) set and
    every flag that was set before still set; the player holds the path as
    its subtitle file, shows the file's base name, has no parser of its own
    and has subtitles enabled. *)
Theorem set_subtitle_file_success (fs : FileSystem) (self : Player) (p : string) :
  fst (set_subtitle_file fs self p) = true ->
  p <> "" /\ exists_ fs p = true /\ (getsize fs p <> 0)%Z /\
  exists pb pb',
    playbin self = Some pb /\ accepts pb p = true /\
    playbin (snd (set_subtitle_file fs self p)) = Some pb' /\
    suburi pb' = Some p /\ has_subtitle_flags (flags pb') /\
    (forall n, Z.testbit (flags pb) n = true -> Z.testbit (flags pb') n = true) /\
    subtitle_file (snd (set_subtitle_file fs self p)) = Some p /\
    subtitle_file_label (snd (set_subtitle_file fs self p)) = OsPath.basename p /\
    subtitle_parser (snd (set_subtitle_file fs self p)) = None /\
    subtitles_enabled (snd (set_subtitle_file fs self p)) = true.
Proof.
  unfold set_subtitle_file.
  destruct (String.eqb_spec p "") as [Ep | Ep]; cbn [orb fst]; [discriminate|].
  destruct (exists_ fs p); cbn [negb fst]; [|discriminate].
  destruct (Z.eqb_spec (getsize fs p) 0) as [E0 | E0]; cbn [fst]; [discriminate|].
  destruct (playbin self) as [pb|] eqn:Epb; cbn [fst]; [|discriminate].
  destruct (accepts pb p) eqn:Ea; cbn [fst snd]; [|discriminate].
  intros _. split; [exact Ep|]. split; [reflexivity|]. split; [exact E0|].
  exists pb. eexists. split; [reflexivity|]. split; [exact Ea|].
  cbn [playbin subtitle_file subtitle_file_label subtitle_parser subtitles_enabled].
  split; [reflexivity|]. cbn [suburi flags].
  split; [reflexivity|]. split; [apply lor_keeps_required|].
  split.
  - intros n Hn. rewrite Z.lor_spec, Hn. reflexivity.
  - repeat split.
Qed.

Lemma set_subtitle_file_success_witness :
  fst (set_subtitle_file (plain_fs 100) fresh_player "/videos/movie.srt") = true /\
  subtitle_file (snd (set_subtitle_file (plain_fs 100) fresh_player "/videos/movie.srt"))
  = Some "/videos/movie.srt".
Proof.
  assert (H : fst (set_subtitle_file (plain_fs 100) fresh_player "/videos/movie.srt") = true)
    by (vm_compute; reflexivity).
  split; [exact H|].
  destruct (set_subtitle_file_success (plain_fs 100) fresh_player
              "/videos/movie.srt" H)
    as (_ & _ & _ & pb & pb' & _ & _ & _ & _ & _ & _ & Hf & _).
  exact Hf.
Defined.

(** X7.  Without a playbin, [set_subtitle_file] on an existing non-empty file
    reports failure, yet the player already holds the path as its subtitle
    file (the path is stored before the playbin is looked at); the parser
    and the displayed text are cleared and the enabled state is untouched. *)
Theorem set_subtitle_file_without_backend (fs : FileSystem) (self : Player) (p : string) :
  p <> "" -> exists_ fs p = true -> (getsize fs p <> 0)%Z ->
  playbin self = None ->
  fst (set_subtitle_file fs self p) = false /\
  subtitle_file (snd (set_subtitle_file fs self p)) = Some p /\
  subtitle_parser (snd (set_subtitle_file fs self p)) = None /\
  current_subtitle_text (snd (set_subtitle_file fs self p)) = None /\
  subtitle_label (snd (set_subtitle_file fs self p)) = "" /\
  subtitles_enabled (snd (set_subtitle_file fs self p)) = subtitles_enabled self.
Proof.
  intros Hp He Hs Hpb. unfold set_subtitle_file.
  destruct (String.eqb_spec p "") as [Ep | _]; [contradiction|].
  rewrite He. cbn [orb negb].
  destruct (Z.eqb_spec (getsize fs p) 0) as [E0 | _]; [contradiction|].
  rewrite Hpb. cbn. repeat split.
Qed.

Lemma set_subtitle_file_without_backend_witness :
  fst (set_subtitle_file (plain_fs 100) player_without_playbin "/videos/movie.srt") = false /\
  subtitle_file (snd (set_subtitle_file (plain_fs 100) player_without_playbin
                        "/videos/movie.srt")) = Some "/videos/movie.srt".
Proof.
  destruct (set_subtitle_file_without_backend (plain_fs 100) player_without_playbin
              "/videos/movie.srt")
    as (Hf & Hs & _).
  - intros H; discriminate H.
  - vm_compute; reflexivity.
  - vm_compute. intros H; discriminate H.
  - reflexivity.
  - split; [exact Hf | exact Hs].
Defined.

(* ================================================================= *)
(** ** What the resolver can return *)

Lemma pattern_lang_exists (fs : FileSystem) (v sep p : string) :
  pattern_lang fs v sep = Some p -> exists_ fs p = true.
Proof.
  unfold pattern_lang. intros H.
  apply first_some_Some in H. destruct H as (lang & _ & H).
  apply first_some_Some in H. destruct H as (ext & _ & H).
  destruct (exists_ fs _) eqn:E; [|discriminate].
  injection H as <-. exact E.
Qed.

(** X8.  What the automatic search finds is on disk: the result is either a
    path that exists, or a file with a subtitle extension listed in one of
    the sub-directories [subtitles], [subs], [srt], [subtitle], [sub] beside
    the video, or such a file listed in the parent of the video's
    directory. *)
Theorem found_subtitle_is_on_disk (fs : FileSystem) (v p : string) :
  found_subtitle fs v = Some p ->
  exists_ fs p = true \/
  (exists subdir filename,
      In subdir ["subtitles"; "subs"; "srt"; "subtitle"; "sub"] /\
      listed_subtitle fs (OsPath.join (OsPath.dirname v) subdir) filename /\
      p = OsPath.join (OsPath.join (OsPath.dirname v) subdir) filename) \/
  (exists filename,
      listed_subtitle fs (OsPath.dirname (OsPath.dirname v)) filename /\
      p = OsPath.join (OsPath.dirname (OsPath.dirname v)) filename).
Proof.
  intros Hf. pose proof (found_subtitle_first_rank fs v) as H.
  rewrite Hf in H. destruct H as (k & Hk & Hp & _).
  destruct k as [|k]; [lia|].
  destruct k as [|k].
  { left. change (pattern fs v 1) with (pattern_lang fs v ".") in Hp.
    apply pattern_lang_exists in Hp. exact Hp. }
  destruct k as [|k].
  { left. change (pattern fs v 2) with (pattern_lang fs v "_") in Hp.
    apply pattern_lang_exists in Hp. exact Hp. }
  destruct k as [|k].
  { left. change (pattern fs v 3) with (pattern_lang fs v "-") in Hp.
    apply pattern_lang_exists in Hp. exact Hp. }
  destruct k as [|k].
  { left. change (pattern fs v 4) with (pattern4 fs v) in Hp.
    unfold pattern4 in Hp. apply first_some_Some in Hp.
    destruct Hp as (ext & _ & H).
    destruct (exists_ fs _) eqn:E; [|discriminate].
    injection H as <-. exact E. }
  destruct k as [|k].
  { right. left. change (pattern fs v 5) with (pattern5 fs v) in Hp.
    unfold pattern5 in Hp. apply first_some_Some in Hp.
    destruct Hp as (subdir & Hsub & H). fold (directory v) in H.
    destruct (exists_ fs (OsPath.join (directory v) subdir)) eqn:Ee;
      cbn [andb] in H; [|discriminate].
    destruct (isdir fs (OsPath.join (directory v) subdir)) eqn:Ed; [|discriminate].
    apply first_some_Some in H. destruct H as (filename & Hin & H).
    destruct (OsPath.splitext filename) as [file_base file_ext] eqn:Es.
    destruct (PyStr.mem (PyStr.lower file_ext) subtitle_extensions) eqn:Em;
      cbn [andb] in H; [|discriminate].
    destruct (_ || _); [|discriminate]. injection H as <-.
    exists subdir, filename. split; [exact Hsub|]. split; [|reflexivity].
    unfold listed_subtitle. rewrite Es. cbn [snd].
    split; [exact Ee|]. split; [exact Ed|]. split; [exact Hin | exact Em]. }
  destruct k as [|k]; [|lia].
  right. right. change (pattern fs v 6) with (pattern6 fs v) in Hp.
  unfold pattern6 in Hp. cbv zeta in Hp. fold (directory v) in Hp.
  destruct (exists_ fs (OsPath.dirname (directory v))) eqn:Ee;
    cbn [andb] in Hp; [|discriminate].
  destruct (isdir fs (OsPath.dirname (directory v))) eqn:Ed; [|discriminate].
  apply first_some_Some in Hp. destruct Hp as (filename & Hin & H).
  destruct (OsPath.splitext filename) as [file_base file_ext] eqn:Es.
  destruct (PyStr.mem (PyStr.lower file_ext) subtitle_extensions) eqn:Em;
    cbn [andb] in H; [|discriminate].
  destruct (PyStr.contains _ _); [|discriminate]. injection H as <-.
  exists filename. split; [|reflexivity].
  unfold listed_subtitle. rewrite Es. cbn [snd].
  split; [exact Ee|]. split; [exact Ed|]. split; [exact Hin | exact Em].
Qed.

Lemma found_subtitle_is_on_disk_witness :
  found_subtitle (plain_fs 100) "/videos/movie.mp4" = Some "/videos/movie.srt" /\
  exists_ (plain_fs 100) "/videos/movie.srt" = true.
Proof.
  assert (H : found_subtitle (plain_fs 100) "/videos/movie.mp4"
              = Some "/videos/movie.srt") by (vm_compute; reflexivity).
  split; [exact H|].
  pose proof (found_subtitle_is_on_disk (plain_fs 100) _ _ H) as Hd.
  vm_compute. reflexivity.
Defined.

(* ================================================================= *)
(** ** A file chosen by hand *)

(** X5.  A subtitle file chosen by hand is taken only when it has one of the
    five subtitle extensions, is not empty and not larger than 10 MB and
    its first characters pass the content check; the player then holds the
    file as its subtitle file, with subtitles enabled and the subtitle
    button active. *)
Theorem manual_selection_takes_validated_files (fs : FileSystem) (self : Player)
    (path : string) :
  fst (_on_subtitle_file_selected fs self path) = true ->
  PyStr.mem (PyStr.lower (snd (OsPath.splitext path)))
    [".srt"; ".vtt"; ".sub"; ".ssa"; ".ass"] = true /\
  (getsize fs path <> 0)%Z /\ (getsize fs path <= size_limit)%Z /\
  check_content (PyStr.lower (snd (OsPath.splitext path))) (read_head fs path) = true /\
  subtitle_file (snd (_on_subtitle_file_selected fs self path)) = Some path /\
  subtitle_button_active (snd (_on_subtitle_file_selected fs self path)) = true /\
  subtitles_enabled (snd (_on_subtitle_file_selected fs self path)) = true.
Proof.
  unfold _on_subtitle_file_selected.
  destruct (_validate_subtitle_file fs path) eqn:Ev; cbn [fst]; [|discriminate].
  apply validate_subtitle_file_true in Ev.
  destruct Ev as (_ & Hm & H0 & Hl & Hc).
  unfold set_subtitle_file.
  destruct (String.eqb path "" || negb (exists_ fs path)); cbn [fst]; [discriminate|].
  destruct (getsize fs path =? 0)%Z; cbn [fst]; [discriminate|].
  destruct (playbin self) as [pb|]; cbn [fst]; [|discriminate].
  destruct (accepts pb path); cbn [fst snd]; [|discriminate].
  intros _. cbn [subtitle_file subtitle_button_active subtitles_enabled].
  split; [exact Hm|]. split; [intros E; apply H0; symmetry; exact E|].
  split; [exact Hl|]. split; [exact Hc|]. split; [reflexivity|].
  split; reflexivity.
Qed.

Lemma manual_selection_takes_validated_files_witness :
  fst (_on_subtitle_file_selected (plain_fs 100) fresh_player "/videos/movie.srt") = true /\
  (getsize (plain_fs 100) "/videos/movie.srt" <= size_limit)%Z /\
  subtitle_file (snd (_on_subtitle_file_selected (plain_fs 100) fresh_player
                        "/videos/movie.srt")) = Some "/videos/movie.srt".
Proof.
  assert (H : fst (_on_subtitle_file_selected (plain_fs 100) fresh_player
                     "/videos/movie.srt") = true) by (vm_compute; reflexivity).
  split; [exact H|].
  destruct (manual_selection_takes_validated_files (plain_fs 100) fresh_player
              "/videos/movie.srt" H) as (_ & _ & Hl & _ & Hf & _).
  split; [exact Hl | exact Hf].
Defined.

(* ================================================================= *)
(** ** The outcome of the automatic search *)



(* ================================================================= *)
(** ** The results of a scan *)

Lemma string_leb_trans (a b c : string) :
  String.leb a b = true -> String.leb b c = true -> String.leb a c = true.
Proof.
  unfold String.leb. revert b c.
  induction a as [|x a IH]; intros [|y b] [|z c]; cbn [String.compare];
    try (intros; reflexivity); try (intros; discriminate).
  unfold Ascii.compare.
  destruct (N.compare_spec (N_of_ascii x) (N_of_ascii y)) as [E1 | E1 | E1];
    destruct (N.compare_spec (N_of_ascii y) (N_of_ascii z)) as [E2 | E2 | E2];
    destruct (N.compare_spec (N_of_ascii x) (N_of_ascii z)) as [E3 | E3 | E3];
    try lia; try (intros; reflexivity); try (intros; discriminate).
  apply IH.
Qed.

Lemma string_leb_total (a b : string) :
  String.leb a b = false -> String.leb b a = true.
Proof.
  intros H. destruct (String.leb_total a b) as [T | T]; [congruence | exact T].
Qed.

Lemma fold_scan_total_files (visits : list Visit) :
  forall acc,
    total_files acc = length (all_files acc) ->
    total_files (fold_left scan_step visits acc) =
    length (all_files (fold_left scan_step visits acc)).
Proof.
  induction visits as [|v visits IH]; intros acc H; cbn [fold_left]; [exact H|].
  apply IH. unfold scan_step, videos_of. cbn [total_files all_files].
  rewrite length_app, length_map, H. reflexivity.
Qed.

(** X10.  Whenever a folder scan comes to its end, the count [total_files] is
    the length of [all_files], [all_files] holds exactly the videos of the
    directories visited, each as often as it was found, and it is ordered by
    lower-cased file name. *)
Theorem scan_counts_and_sorts_all_files (cancelled : nat -> bool)
    (folder_path : string) (d : Dir) (s : Scan) :
  scan_folder_thread cancelled folder_path d = Some s ->
  total_files s = length (all_files s) /\
  Permutation (all_files s) (flat_map videos_of (walk not_hidden folder_path [] d)) /\
  StronglySorted name_le (all_files s).
Proof.
  unfold scan_folder_thread.
  destruct (scan_loop _ _ _ _) as [s0| | |] eqn:E; try discriminate.
  intros [= <-]. cbn [total_files all_files].
  apply scan_loop_Done in E. subst s0.
  split; [|split].
  - rewrite sorted_by_length. apply fold_scan_total_files. reflexivity.
  - apply Permutation_sym. eapply perm_trans; [|apply sorted_by_perm].
    rewrite fold_scan_all_files. apply Permutation_refl.
  - apply (sorted_by_sorted String.leb (fun x => PyStr.lower (snd x))
             string_leb_total string_leb_trans).
Qed.

Lemma scan_counts_and_sorts_all_files_witness :
  exists s,
    scan_folder_thread (fun _ => false) "/lib" hidden_video_dir = Some s /\
    total_files s = 2 /\ length (all_files s) = 2.
Proof.
  eexists. split; [vm_compute; reflexivity|].
  split; [reflexivity|].
  symmetry.
  exact (proj1 (scan_counts_and_sorts_all_files (fun _ => false) "/lib"
                  hidden_video_dir _ eq_refl)).
Defined.

(* ================================================================= *)
(** ** Cancelling a scan *)

(** X11.  When none of the directories visited is named [_files], a folder
    scan ends without a result exactly when the cancellation flag is seen
    set at the end of one of the directory visits; a flag set after the last
    visit does not stop it. *)
Theorem scan_is_dropped_iff_cancelled_during_a_visit (cancelled : nat -> bool)
    (folder_path : string) (d : Dir) :
  well_named d = true ->
  (scan_folder_thread cancelled folder_path d = None <->
   exists k, k < length (walk not_hidden folder_path [] d) /\ cancelled k = true).
Proof.
  intros Hw. unfold scan_folder_thread.
  destruct (scan_loop_plain cancelled _ (well_named_visits folder_path d Hw)
              0 (mkScan [] empty_folder 0))
    as [((k & Hk & Hc) & ->) | (Hall & ->)].
  - split; [|reflexivity]. intros _. exists k. split; [exact Hk | exact Hc].
  - split; [discriminate|]. intros (k & Hk & Hc).
    pose proof (Hall k Hk) as Hf. cbn [Nat.add] in Hf.
    rewrite Hf in Hc. discriminate Hc.
Qed.

Lemma scan_is_dropped_iff_cancelled_during_a_visit_witness :
  well_named hidden_video_dir = true /\
  scan_folder_thread (fun n => Nat.eqb n 1) "/lib" hidden_video_dir = None /\
  scan_folder_thread (fun n => Nat.eqb n 2) "/lib" hidden_video_dir <> None.
Proof.
  split; [reflexivity|]. split.
  - apply (scan_is_dropped_iff_cancelled_during_a_visit (fun n => Nat.eqb n 1)
             "/lib" hidden_video_dir eq_refl).
    exists 1. split; [vm_compute; apply le_n | reflexivity].
  - vm_compute. intros H. discriminate H.
Defined.

(* ================================================================= *)
(** ** The folder rows of a scanned directory *)

Lemma update_sub_keys (p name : string) (f : FolderStructure -> FolderStructure)
    (subs : list (string * FolderStructure)) :
  In name (map fst (update_sub p f subs)) <-> In name (map fst subs) \/ name = p.
Proof.
  induction subs as [|[k v] subs IH]; cbn [update_sub map fst In].
  - split; [intros [H | []]; right; symmetry; exact H
           | intros [[] | H]; left; symmetry; exact H].
  - destruct (String.eqb_spec p k) as [-> | Hpk]; cbn [map fst In].
    + split; [intros H; left; exact H|].
      intros [H | ->]; [exact H | left; reflexivity].
    + rewrite IH. split.
      * intros [H | [H | H]]; [left; left; exact H | left; right; exact H | right; exact H].
      * intros [[H | H] | H]; [left; exact H | right; left; exact H | right; right; exact H].
Qed.

Lemma add_files_keys (parts : list string) (videos : list (string * string))
    (s : FolderStructure) (name : string) :
  In name (map fst (subfolders_of (add_files parts videos s))) <->
  In name (map fst (subfolders_of s)) \/ hd_error parts = Some name.
Proof.
  destruct parts as [|p ps]; cbn [add_files hd_error].
  - destruct videos; cbn [subfolders_of];
      (split; [intros H; left; exact H | intros [H | H]; [exact H | discriminate H]]).
  - cbn [subfolders_of]. rewrite update_sub_keys. split.
    + intros [H | ->]; [left; exact H | right; reflexivity].
    + intros [H | [= ->]]; [left; exact H | right; reflexivity].
Qed.

Lemma stored_keys (parts : list string) (videos : list (string * string))
    (s : FolderStructure) (name : string) :
  name <> "_files" ->
  (In name (map fst (subfolders_of (stored parts videos s))) <->
   In name (map fst (subfolders_of s)) \/ hd_error parts = Some name).
Proof.
  intros Hne. unfold stored.
  destruct (before_files parts) as [[pre post]|] eqn:E; [|apply add_files_keys].
  apply before_files_Some in E. destruct E as [-> _].
  rewrite add_files_keys. destruct pre as [|p pre]; cbn [app hd_error].
  - split; (intros [H | H]; [left; exact H|]); [discriminate H|].
    injection H as H. exfalso. apply Hne. symmetry. exact H.
  - reflexivity.
Qed.

Lemma fold_scan_keys (visits : list Visit) (name : string) :
  name <> "_files" ->
  forall acc,
    In name (map fst (subfolders_of (folder_structure (fold_left scan_step visits acc)))) <->
    In name (map fst (subfolders_of (folder_structure acc))) \/
    exists v, In v visits /\ hd_error (path_parts v) = Some name.
Proof.
  intros Hne. induction visits as [|v visits IH]; intros acc; cbn [fold_left].
  - split; [intros H; left; exact H | intros [H | (v & [] & _)]; exact H].
  - rewrite IH.
    change (folder_structure (scan_step acc v))
      with (stored (path_parts v) (videos_of v) (folder_structure acc)).
    rewrite (stored_keys _ _ _ _ Hne). split.
    + intros [[H | H] | (w & Hw & Hh)].
      * left; exact H.
      * right. exists v. split; [left; reflexivity | exact H].
      * right. exists w. split; [right; exact Hw | exact Hh].
    + intros [H | (w & [<- | Hw] & Hh)].
      * left; left; exact H.
      * left; right; exact Hh.
      * right. exists w. split; [exact Hw | exact Hh].
Qed.

(** The keys of the top level after a scan, [_files] apart, are the names
    of the sub-directories that are entered. *)
Lemma scan_top_level_keys (cancelled : nat -> bool) (folder_path : string)
    (files : list string) (dirs : list (string * Dir)) (s : Scan) (name : string) :
  name <> "_files" ->
  scan_folder_thread cancelled folder_path (mkDir files dirs) = Some s ->
  (In name (map fst (subfolders_of (folder_structure s))) <->
   In name (map fst dirs) /\ not_hidden name = true).
Proof.
  intros Hne. unfold scan_folder_thread.
  destruct (scan_loop _ _ _ _) as [s0| | |] eqn:E; try discriminate.
  intros [= <-]. cbn [folder_structure].
  apply scan_loop_Done in E. subst s0. rewrite (fold_scan_keys _ _ Hne).
  cbn [folder_structure empty_folder subfolders_of map In]. split.
  - intros [[] | (v & Hv & Hh)].
    apply walk_In in Hv. destruct Hv as (parts & d' & Hs & ->).
    cbn [path_parts app] in Hh. destruct parts as [|p ps]; [discriminate Hh|].
    cbn [hd_error] in Hh. injection Hh as ->.
    inversion Hs; subst. split; [|assumption].
    apply in_map_iff. exists (name, sub). split; [reflexivity | assumption].
  - intros [Hin Hk]. right. apply in_map_iff in Hin.
    destruct Hin as ([n sub] & Hn & Hin). cbn [fst] in Hn. subst n.
    exists (mkVisit (fold_left OsPath.join [name] folder_path) ([] ++ [name])
              (dir_files sub)).
    split; [|reflexivity].
    apply walk_In. exists [name], sub. split; [|reflexivity].
    econstructor; [exact Hin | exact Hk | constructor].
Qed.

Lemma sorted_folder_names_In (s : FolderStructure) (name : string) :
  In name (sorted_folder_names s) <->
  In name (map fst (subfolders_of s)) /\ name <> "_files".
Proof.
  unfold sorted_folder_names, PyStr.sorted. rewrite sorted_by_In, filter_In.
  destruct (String.eqb_spec name "_files") as [E | E]; cbn [negb].
  - split; [intros [_ H]; discriminate H | intros [_ H]; contradiction].
  - split; [intros [H _]; split; [exact H | exact E]
           | intros [H _]; split; [exact H | reflexivity]].
Qed.

Lemma build_folder_model_shape (pd : ProgressData) (s : FolderStructure) :
  exists header rows,
    build_folder_model pd s =
    map (folder_item s) (sorted_folder_names s) ++ header ++ rows /\
    (header = [] \/ exists n, header = [root_header n]) /\
    Forall (fun r => is_folder r = false) rows.
Proof.
  unfold build_folder_model. cbv zeta.
  destruct (files_of s) as [[|f fl]|].
  - exists [], []. rewrite !app_nil_r. split; [reflexivity|].
    split; [left; reflexivity | constructor].
  - set (root_files := PyStr.sorted_by String.leb (fun x => PyStr.lower (snd x)) (f :: fl)).
    destruct (sorted_folder_names s) as [|n ns].
    + destruct (add_root_files_rows pd root_files (map (folder_item s) []))
        as (rows & Heq & _ & _ & Hall).
      exists [], rows. rewrite Heq. split; [reflexivity|].
      split; [left; reflexivity|].
      eapply Forall_impl; [|exact Hall]. intros r Hr. apply Hr.
    + destruct (add_root_files_rows pd root_files
                  (map (folder_item s) (n :: ns) ++ [root_header (length root_files)]))
        as (rows & Heq & _ & _ & Hall).
      exists [root_header (length root_files)], rows. rewrite Heq, <- app_assoc.
      split; [reflexivity|].
      split; [right; eexists; reflexivity|].
      eapply Forall_impl; [|exact Hall]. intros r Hr. apply Hr.
  - exists [], []. rewrite !app_nil_r. split; [reflexivity|].
    split; [left; reflexivity | constructor].
Qed.

Lemma build_folder_model_folder_rows (pd : ProgressData) (s : FolderStructure)
    (name : string) :
  name <> "." ->
  ((exists r, In r (build_folder_model pd s) /\ is_folder r = true /\
              folder_name r = Some name) <->
   In name (sorted_folder_names s)).
Proof.
  intros Hdot.
  destruct (build_folder_model_shape pd s) as (header & rows & -> & Hh & Hall).
  split.
  - intros (r & Hr & Hf & Hn). apply in_app_or in Hr. destruct Hr as [Hr | Hr].
    + apply in_map_iff in Hr. destruct Hr as (n & <- & Hin).
      cbn [folder_item folder_name] in Hn. injection Hn as ->. exact Hin.
    + apply in_app_or in Hr. destruct Hr as [Hr | Hr].
      * destruct Hh as [-> | (n & ->)]; [destruct Hr|].
        destruct Hr as [<- | []].
        cbn [root_header folder_name] in Hn. injection Hn as Hn.
        exfalso. apply Hdot. symmetry. exact Hn.
      * rewrite Forall_forall in Hall. rewrite (Hall r Hr) in Hf. discriminate Hf.
  - intros H. exists (folder_item s name). split; [|split; reflexivity].
    apply in_or_app. left. apply in_map. exact H.
Qed.

(** X12.  After a scan the library has a folder row for a name (other than
    [_files] and [.]) exactly when the scanned directory has an immediate
    sub-directory of that name that does not start with a dot, whether or
    not any video lies below it. *)
Theorem every_visible_subfolder_has_a_row (pd : ProgressData) (folder_path : string)
    (files : list string) (dirs : list (string * Dir)) (rows : list VideoItem)
    (name : string) :
  load_videos_from_folder pd folder_path (mkDir files dirs) = Some rows ->
  name <> "_files" -> name <> "." ->
  ((exists r, In r rows /\ is_folder r = true /\ folder_name r = Some name) <->
   In name (map fst dirs) /\ not_hidden name = true).
Proof.
  unfold load_videos_from_folder.
  destruct (scan_folder_thread _ _ _) as [s|] eqn:E; [|discriminate].
  intros [= <-] Hf Hdot.
  rewrite (build_folder_model_folder_rows pd (folder_structure s) name Hdot).
  rewrite sorted_folder_names_In.
  rewrite (scan_top_level_keys _ _ _ _ _ name Hf E).
  split; [intros [H _]; exact H | intros H; split; [exact H | exact Hf]].
Qed.

Lemma every_visible_subfolder_has_a_row_witness :
  exists rows,
    load_videos_from_folder (fun _ => None) "/lib" empty_subfolder_dir = Some rows /\
    exists r, In r rows /\ is_folder r = true /\ folder_name r = Some "Notes".
Proof.
  eexists. split; [vm_compute; reflexivity|].
  apply (every_visible_subfolder_has_a_row (fun _ => None) "/lib" []
           [("Notes", mkDir ["readme.txt"] []); ("Week 1", mkDir ["intro.mp4"] [])]).
  - vm_compute. reflexivity.
  - intros H; discriminate H.
  - intros H; discriminate H.
  - split; [left; reflexivity | reflexivity].
Defined.

(* ================================================================= *)
(** ** The number a folder row shows *)

Lemma flat_map_nil {A B : Type} (g : A -> list B) (l : list A) :
  (forall x, In x l -> g x = []) -> flat_map g l = [].
Proof.
  induction l as [|x l IH]; intros H; [reflexivity|].
  cbn [flat_map]. rewrite (H x (or_introl eq_refl)), IH; [reflexivity|].
  intros y Hy. apply H. right. exact Hy.
Qed.

Lemma videos_at_deeper (keep : string -> bool) (top n name : string) (sub : Dir)
    (v : Visit) :
  In v (walk_down keep top [n] (match sub with mkDir _ dirs => dirs end)) ->
  videos_at [name] v = [].
Proof.
  intros Hv. apply walk_down_In in Hv. destruct Hv as (m & sub' & _ & _ & Hv).
  apply walk_In in Hv. destruct Hv as (parts & d' & _ & ->).
  unfold videos_at. cbn [path_parts].
  destruct (list_eq_dec string_dec (([n] ++ [m]) ++ parts) [name]) as [E | _];
    [discriminate E | reflexivity].
Qed.

Lemma videos_at_other (keep : string -> bool) (top n name : string) (sub : Dir)
    (v : Visit) :
  n <> name -> In v (walk keep top [n] sub) -> videos_at [name] v = [].
Proof.
  intros Hn Hv. apply walk_In in Hv. destruct Hv as (parts & d' & _ & ->).
  unfold videos_at. cbn [path_parts].
  destruct (list_eq_dec string_dec ([n] ++ parts) [name]) as [E | _]; [|reflexivity].
  cbn [app] in E. injection E as E _. contradiction.
Qed.

Lemma videos_at_walk_named (keep : string -> bool) (top name : string) (sub : Dir) :
  flat_map (videos_at [name]) (walk keep top [name] sub) =
  videos_of (mkVisit top [name] (dir_files sub)).
Proof.
  destruct sub as [files dirs]. rewrite walk_unfold. cbn [flat_map dir_files].
  rewrite (flat_map_nil (videos_at [name])
             (walk_down keep top [name] dirs)).
  - rewrite app_nil_r. unfold videos_at. cbn [path_parts].
    destruct (list_eq_dec string_dec [name] [name]) as [_ | N];
      [reflexivity | contradiction].
  - intros v Hv. exact (videos_at_deeper keep top name name (mkDir files dirs) v Hv).
Qed.

Lemma videos_at_walk_down_absent (keep : string -> bool) (top name : string)
    (l : list (string * Dir)) :
  ~ In name (map fst l) ->
  flat_map (videos_at [name]) (walk_down keep top [] l) = [].
Proof.
  intros Hn. apply flat_map_nil. intros v Hv.
  apply walk_down_In in Hv. destruct Hv as (n & sub & Hin & _ & Hv).
  cbn [app] in Hv.
  apply (videos_at_other keep (OsPath.join top n) n name sub v); [|exact Hv].
  intros ->. apply Hn. apply in_map_iff. exists (name, sub).
  split; [reflexivity | exact Hin].
Qed.

Lemma videos_at_walk_down (keep : string -> bool) (top name : string) (sub : Dir)
    (l : list (string * Dir)) :
  NoDup (map fst l) -> In (name, sub) l -> keep name = true ->
  flat_map (videos_at [name]) (walk_down keep top [] l) =
  videos_of (mkVisit (OsPath.join top name) [name] (dir_files sub)).
Proof.
  induction l as [|[n s'] l IH]; intros Hnd Hin Hk; [destruct Hin|].
  cbn [map fst] in Hnd. inversion Hnd as [|? ? Hnotin Hnd']; subst.
  cbn [walk_down]. destruct Hin as [E | Hin].
  - injection E as -> ->. rewrite Hk, flat_map_app.
    cbn [app]. rewrite videos_at_walk_named.
    rewrite (videos_at_walk_down_absent keep top name l Hnotin).
    apply app_nil_r.
  - assert (Hne : n <> name).
    { intros ->. apply Hnotin. apply in_map_iff. exists (name, sub).
      split; [reflexivity | exact Hin]. }
    destruct (keep n).
    + rewrite flat_map_app.
      rewrite (flat_map_nil (videos_at [name])
                 (walk keep (OsPath.join top n) ([] ++ [n]) s')).
      * cbn [app]. apply IH; assumption.
      * intros v Hv. cbn [app] in Hv.
        exact (videos_at_other keep (OsPath.join top n) n name s' v Hne Hv).
    + apply IH; assumption.
Qed.

Lemma count_files_files_at (s : FolderStructure) (name : string) :
  count_files (lookup name (subfolders_of s)) = length (files_at s [name]).
Proof.
  cbn [files_at]. destruct (lookup name (subfolders_of s)) as [[[l|] subs]|];
    reflexivity.
Qed.

(** X13.  When none of the directories visited is named [_files], the
    folder row of an immediate sub-directory shows the number of video files
    that lie directly in that directory; videos further down are not
    counted.  (Names of sub-directories are distinct.) *)
Theorem folder_row_counts_direct_videos (pd : ProgressData) (folder_path : string)
    (files : list string) (dirs : list (string * Dir)) (rows : list VideoItem)
    (name : string) (sub : Dir) :
  well_named (mkDir files dirs) = true ->
  load_videos_from_folder pd folder_path (mkDir files dirs) = Some rows ->
  NoDup (map fst dirs) -> In (name, sub) dirs ->
  not_hidden name = true -> name <> "_files" ->
  exists r,
    In r rows /\ is_folder r = true /\ folder_name r = Some name /\
    title r = (folder_marker ++ name)%string /\ indent_level r = 0 /\
    details r =
    (PyStr.str_of_nat (length (filter is_video (dir_files sub))) ++ " videos")%string.
Proof.
  intros _. unfold load_videos_from_folder.
  destruct (scan_folder_thread _ _ _) as [s|] eqn:E; [|discriminate].
  intros [= <-] Hnd Hin Hk Hf.
  exists (folder_item (folder_structure s) name).
  split.
  - destruct (build_folder_model_shape pd (folder_structure s))
      as (header & vrows & -> & _ & _).
    apply in_or_app. left. apply in_map. apply sorted_folder_names_In.
    split; [|exact Hf].
    apply (scan_top_level_keys _ _ _ _ _ name Hf E). split; [|exact Hk].
    apply in_map_iff. exists (name, sub). split; [reflexivity | exact Hin].
  - split; [reflexivity|]. split; [reflexivity|]. split; [reflexivity|].
    split; [reflexivity|]. cbn [folder_item details].
    rewrite count_files_files_at.
    unfold scan_folder_thread in E.
    destruct (scan_loop _ _ _ _) as [s0| | |] eqn:E0; try discriminate.
    injection E as <-. cbn [folder_structure].
    apply scan_loop_Done in E0. subst s0.
    assert (Hname : ~ In "_files" [name]).
    { intros [H | []]. exact (Hf H). }
    rewrite (files_at_scan _ _ _ Hname).
    cbn [folder_structure]. rewrite files_at_empty. cbn [app].
    rewrite walk_unfold. cbn [flat_map path_parts].
    destruct (list_eq_dec string_dec [] [name]) as [N | _]; [discriminate N|].
    cbn [app].
    change (fun v : Visit =>
              if list_eq_dec string_dec (path_parts v) [name]
              then videos_of v else []) with (videos_at [name]).
    rewrite (videos_at_walk_down not_hidden folder_path name sub dirs Hnd Hin Hk).
    unfold videos_of. cbn [filenames]. rewrite length_map. reflexivity.
Qed.

Lemma folder_row_counts_direct_videos_witness :
  exists rows r,
    load_videos_from_folder (fun _ => None) "/lib" nested_course_dir = Some rows /\
    In r rows /\ folder_name r = Some "Course" /\ details r = "0 videos".
Proof.
  destruct (folder_row_counts_direct_videos (fun _ => None) "/lib" []
              [("Course", mkDir ["syllabus.pdf"] [("Week 1", mkDir ["intro.mp4"] [])])]
              _ "Course" (mkDir ["syllabus.pdf"] [("Week 1", mkDir ["intro.mp4"] [])])
              eq_refl eq_refl)
    as (r & Hin & _ & Hn & _ & _ & Hd).
  - constructor; [intros [] | constructor].
  - left. reflexivity.
  - reflexivity.
  - intros H; discriminate H.
  - eexists. exists r. split; [reflexivity|]. split; [exact Hin|].
    split; [exact Hn | exact Hd].
Defined.

(* ================================================================= *)
(** ** The numbers of the video rows *)

Lemma add_root_files_ids (pd : ProgressData) (root_files : list (string * string)) :
  forall model i r,
    (forall j x, nth_error model j = Some x -> is_folder x = false ->
                 video_id x = ("video_" ++ PyStr.str_of_nat j)%string) ->
    nth_error (add_root_files pd model root_files) i = Some r ->
    is_folder r = false ->
    video_id r = ("video_" ++ PyStr.str_of_nat i)%string.
Proof.
  induction root_files as [|[path name] rest IH]; intros model i r Hm;
    cbn [add_root_files]; [apply Hm|].
  apply IH. intros j x Hj Hx.
  destruct (Nat.lt_ge_cases j (length model)) as [L | L].
  - rewrite nth_error_app1 in Hj by exact L. exact (Hm j x Hj Hx).
  - rewrite nth_error_app2 in Hj by exact L.
    destruct (j - length model) as [|k] eqn:Ek.
    + cbn [nth_error] in Hj. injection Hj as <-. cbn [video_id].
      replace j with (length model) by lia. reflexivity.
    + cbn [nth_error] in Hj. destruct k; discriminate Hj.
Qed.

(** X14.  In the model [build_folder_model] hands to the library view, a video
    row at position [i] has the id [video_i]. *)
Theorem video_rows_are_numbered_by_position (pd : ProgressData)
    (s : FolderStructure) (i : nat) (r : VideoItem) :
  nth_error (build_folder_model pd s) i = Some r ->
  is_folder r = false ->
  video_id r = ("video_" ++ PyStr.str_of_nat i)%string.
Proof.
  assert (Hfolders : forall l j x,
            nth_error (map (folder_item s) l) j = Some x -> is_folder x = false ->
            video_id x = ("video_" ++ PyStr.str_of_nat j)%string).
  { intros l j x Hj Hx. apply nth_error_In, in_map_iff in Hj.
    destruct Hj as (n & <- & _). discriminate Hx. }
  unfold build_folder_model. cbv zeta.
  destruct (files_of s) as [[|f fl]|]; try apply Hfolders.
  apply add_root_files_ids. intros j x Hj Hx.
  destruct (sorted_folder_names s) as [|n ns]; [exact (Hfolders [] j x Hj Hx)|].
  destruct (Nat.lt_ge_cases j (length (map (folder_item s) (n :: ns)))) as [L | L].
  - rewrite nth_error_app1 in Hj by exact L. exact (Hfolders (n :: ns) j x Hj Hx).
  - rewrite nth_error_app2 in Hj by exact L.
    destruct (j - length (map (folder_item s) (n :: ns))) as [|k].
    + cbn [nth_error] in Hj. injection Hj as <-. discriminate Hx.
    + cbn [nth_error] in Hj. destruct k; discriminate Hj.
Qed.

Lemma video_rows_are_numbered_by_position_witness :
  exists r,
    nth_error (build_folder_model (fun _ => None)
                 (Folder (Some [("/root/a.mp4", "a.mp4")])
                         [("Lectures", Folder (Some [("/root/Lectures/b.mkv", "b.mkv")]) [])]))
              2 = Some r /\
    file_path r = "/root/a.mp4" /\ video_id r = "video_2".
Proof.
  eexists. split; [vm_compute; reflexivity|]. split; [reflexivity|].
  apply (video_rows_are_numbered_by_position (fun _ => None)
           (Folder (Some [("/root/a.mp4", "a.mp4")])
                   [("Lectures", Folder (Some [("/root/Lectures/b.mkv", "b.mkv")]) [])])
           2); reflexivity.
Defined.

(* ================================================================= *)
(** ** Playback progress *)

Lemma on_video_progress_updated_idle (w : Window) (p : string) (duration position : Q)
    (now : Z) :
  current_video_path w = Some p -> p <> "" -> idle w -> (0 < duration)%Q ->
  on_video_progress_updated w duration position now =
  mkWindow (Some p) false false true
    (fun k => if String.eqb k p
              then Some (Watched position (position / duration)%Q now)
              else progress_entries w k).
Proof.
  intros Hp Hne (H1 & H2 & H3) Hd. unfold on_video_progress_updated.
  rewrite Hp, H1, H2, H3.
  destruct (String.eqb_spec p "") as [E | _]; [contradiction|]. cbn [orb].
  destruct (Qle_bool duration (inject_Z 0)) eqn:El; [|reflexivity].
  apply Qle_bool_iff in El. exfalso. apply (Qlt_not_le _ _ Hd). exact El.
Qed.

(** X15.  When no save or folder load is under way and the duration is
    positive, a progress update for the current video records the position,
    the fraction position/duration and the time under the video's path,
    leaves every other path as it was, and the fraction is the progress any
    row of that video gets when the library model is built next. *)
Theorem progress_update_reaches_the_row (w : Window) (p : string)
    (duration position : Q) (now : Z) :
  current_video_path w = Some p -> p <> "" -> idle w -> (0 < duration)%Q ->
  get_video_progress (on_video_progress_updated w duration position now) p
  = Some (Watched position (position / duration)%Q now) /\
  (forall q, q <> p ->
     get_video_progress (on_video_progress_updated w duration position now) q
     = get_video_progress w q) /\
  (forall s r,
     In r (build_folder_model
             (progress_data_of (on_video_progress_updated w duration position now)) s) ->
     file_path r = p -> progress r = (position / duration)%Q).
Proof.
  intros Hp Hne Hi Hd.
  rewrite (on_video_progress_updated_idle w p duration position now Hp Hne Hi Hd).
  unfold get_video_progress. cbn [progress_entries].
  split; [rewrite String.eqb_refl; reflexivity|]. split.
  - intros q Hq. destruct (String.eqb_spec q p) as [E | _]; [contradiction | reflexivity].
  - intros s r Hr Hf.
    revert Hr. unfold build_folder_model. cbv zeta.
    assert (Hfold : forall l, In r (map (folder_item s) l) ->
                              progress r = (position / duration)%Q).
    { intros l Hl. apply in_map_iff in Hl. destruct Hl as (n & <- & _).
      cbn [folder_item file_path] in Hf. exfalso. apply Hne. symmetry. exact Hf. }
    destruct (files_of s) as [[|f fl]|]; try apply Hfold.
    match goal with
    | |- In r (add_root_files ?pd ?model ?rf) -> _ =>
        destruct (add_root_files_rows pd rf model) as (vrows & -> & _ & _ & Hall)
    end.
    intros Hr. apply in_app_or in Hr. destruct Hr as [Hr | Hr].
    + destruct (sorted_folder_names s) as [|n ns]; [exact (Hfold [] Hr)|].
      apply in_app_or in Hr. destruct Hr as [Hr | [<- | []]];
        [exact (Hfold (n :: ns) Hr)|].
      cbn [root_header file_path] in Hf. exfalso. apply Hne. symmetry. exact Hf.
    + rewrite Forall_forall in Hall. destruct (Hall r Hr) as (_ & _ & _ & _ & Hprog).
      rewrite Hprog, Hf. unfold progress_percentage, progress_data_of.
      cbn [progress_entries]. rewrite String.eqb_refl. reflexivity.
Qed.

Lemma progress_update_reaches_the_row_witness :
  get_video_progress
    (on_video_progress_updated watching_window (inject_Z 120) (inject_Z 30) 1700000000)
    "/root/a.mp4"
  = Some (Watched (inject_Z 30) (inject_Z 30 / inject_Z 120)%Q 1700000000).
Proof.
  apply (progress_update_reaches_the_row watching_window "/root/a.mp4"
           (inject_Z 120) (inject_Z 30) 1700000000).
  - reflexivity.
  - intros H; discriminate H.
  - split; [reflexivity | split; reflexivity].
  - reflexivity.
Defined.

(** X16.  After a progress update has been recorded, further updates are
    ignored until the scheduled save has run; the save keeps the recorded
    progress, and the update that follows it is recorded again. *)
Theorem progress_updates_wait_for_the_save (w : Window) (p : string)
    (duration position duration' position' : Q) (now now' : Z) (makedirs_ok : bool) :
  current_video_path w = Some p -> p <> "" -> idle w ->
  (0 < duration)%Q -> (0 < duration')%Q ->
  on_video_progress_updated
    (on_video_progress_updated w duration position now) duration' position' now'
  = on_video_progress_updated w duration position now /\
  get_video_progress
    (_save_progress_without_reload makedirs_ok
       (on_video_progress_updated w duration position now)) p
  = Some (Watched position (position / duration)%Q now) /\
  get_video_progress
    (on_video_progress_updated
       (_save_progress_without_reload makedirs_ok
          (on_video_progress_updated w duration position now))
       duration' position' now') p
  = Some (Watched position' (position' / duration')%Q now').
Proof.
  intros Hp Hne Hi Hd Hd'.
  rewrite (on_video_progress_updated_idle w p duration position now Hp Hne Hi Hd).
  split; [|split].
  - unfold on_video_progress_updated at 1.
    cbn [current_video_path _in_progress_save _loading_folder _saving_progress].
    destruct (String.eqb p ""); reflexivity.
  - unfold _save_progress_without_reload, get_video_progress.
    cbn [_in_progress_save progress_entries].
    rewrite String.eqb_refl. destruct (makedirs_ok && String.eqb p "_app_state");
      reflexivity.
  - rewrite (on_video_progress_updated_idle _ p duration' position' now').
    + unfold get_video_progress. cbn [progress_entries].
      rewrite String.eqb_refl. reflexivity.
    + reflexivity.
    + exact Hne.
    + split; [reflexivity | split; reflexivity].
    + exact Hd'.
Qed.

Lemma progress_updates_wait_for_the_save_witness :
  on_video_progress_updated
    (on_video_progress_updated watching_window (inject_Z 120) (inject_Z 30) 1700000000)
    (inject_Z 120) (inject_Z 31) 1700000001
  = on_video_progress_updated watching_window (inject_Z 120) (inject_Z 30) 1700000000.
Proof.
  apply (progress_updates_wait_for_the_save watching_window "/root/a.mp4"
           (inject_Z 120) (inject_Z 30) (inject_Z 120) (inject_Z 31)
           1700000000 1700000001 true).
  - reflexivity.
  - intros H; discriminate H.
  - split; [reflexivity | split; reflexivity].
  - reflexivity.
  - reflexivity.
Defined.

(* ================================================================= *)
(** ** What the WebVTT formatter lets through *)

Lemma contains_char_app (b : ascii) (x y : string) :
  PyStr.contains (String b "") (x ++ y)%string =
  PyStr.contains (String b "") x || PyStr.contains (String b "") y.
Proof.
  induction x as [|c x IH].
  - cbn [String.append]. reflexivity.
  - cbn [String.append PyStr.contains PyStr.startswith].
    rewrite IH, !startswith_empty, orb_assoc. reflexivity.
Qed.

Lemma replace_char_cons (a c : ascii) (new s : string) :
  PyStr.replace_go (String a "") new (String c s) 0 =
  if Ascii.eqb a c
  then (new ++ PyStr.replace_go (String a "") new s 0)%string
  else String c (PyStr.replace_go (String a "") new s 0).
Proof.
  cbn [PyStr.replace_go PyStr.startswith String.length Nat.sub].
  rewrite startswith_empty, andb_true_r. reflexivity.
Qed.

Lemma contains_replace_char (a b : ascii) (new s : string) :
  PyStr.contains (String b "") new = false ->
  PyStr.contains (String b "") s = false \/ a = b ->
  PyStr.contains (String b "") (PyStr.replace (String a "") new s) = false.
Proof.
  intros Hnew. unfold PyStr.replace.
  induction s as [|c s IH]; intros Hs; [reflexivity|].
  rewrite replace_char_cons.
  assert (Htail : PyStr.contains (String b "") s = false \/ a = b).
  { destruct Hs as [Hs | Hs]; [left | right; exact Hs].
    cbn [PyStr.contains] in Hs. apply orb_false_iff in Hs. apply Hs. }
  destruct (Ascii.eqb_spec a c) as [E | E].
  - rewrite contains_char_app, Hnew, (IH Htail). reflexivity.
  - cbn [PyStr.contains PyStr.startswith].
    rewrite startswith_empty, andb_true_r, (IH Htail), orb_false_r.
    destruct Hs as [Hs | Hs].
    + cbn [PyStr.contains PyStr.startswith] in Hs.
      rewrite startswith_empty, andb_true_r in Hs.
      apply orb_false_iff in Hs. apply Hs.
    + subst b. destruct (Ascii.eqb_spec a c) as [E' | _]; [contradiction | reflexivity].
Qed.

(** X17.  The text the WebVTT formatter returns never contains [<] or [>]:
    whatever the cue says, no markup of its own reaches the label, and none
    of its tags survives. *)
Theorem VTT_format_has_no_angle_brackets (t : string) :
  PyStr.contains "<" (VTT.format_subtitle_text t) = false /\
  PyStr.contains ">" (VTT.format_subtitle_text t) = false.
Proof.
  unfold VTT.format_subtitle_text, VTT.allowed_tags. cbv zeta.
  cbn [fold_left]. rewrite !restore_tag_id. split.
  - apply contains_replace_char; [reflexivity|]. left.
    apply contains_replace_char; [reflexivity|]. right. reflexivity.
  - apply contains_replace_char; [reflexivity|]. right. reflexivity.
Qed.

(* ================================================================= *)
(** ** The time shown beside the progress bar *)

(** X19.  [format_time] shows the whole seconds of a time split into hours,
    minutes below 60 and seconds below 60; the hours field is there exactly
    when the time is one hour or more, so a negative time is shown by its
    minutes and seconds alone. *)
Theorem format_time_fields (seconds : Q) :
  exists h m s : Z,
    (py_trunc seconds = h * 3600 + m * 60 + s)%Z /\
    (0 <= m < 60)%Z /\ (0 <= s < 60)%Z /\
    ((0 < h)%Z <-> (3600 <= py_trunc seconds)%Z) /\
    format_time seconds =
    if (0 <? h)%Z
    then (pad2 h ++ ":" ++ pad2 m ++ ":" ++ pad2 s)%string
    else (pad2 m ++ ":" ++ pad2 s)%string.
Proof.
  unfold format_time. cbv zeta. generalize (py_trunc seconds) as n. intros n.
  exists (n / 60 / 60)%Z, ((n / 60) mod 60)%Z, (n mod 60)%Z.
  pose proof (Z.div_mod n 60 ltac:(lia)) as H1.
  pose proof (Z.div_mod (n / 60) 60 ltac:(lia)) as H2.
  pose proof (Z.mod_pos_bound n 60 ltac:(lia)) as H3.
  pose proof (Z.mod_pos_bound (n / 60) 60 ltac:(lia)) as H4.
  split; [lia|]. split; [exact H4|]. split; [exact H3|].
  split; [split; lia | reflexivity].
Qed.
